(** * unscramble: the anagram index and the session store of [game-api/app.py]

    A shallow embedding of the game service: the anagram index built at
    start-up ([build_five_index]), the topic/word picker
    ([_fallback_topic_word], [ask_tinyllama_topic_and_word]) and the three
    session handlers ([new_game], [guess], [state]).

    Conventions of the embedding
    - A Python [str] is a [string]; a character is a code point below 256
      (the Latin-1 block), with the interpreter's classification of letters
      and white space on that block.  Code points above 255 are outside the
      model.
    - A Python [float] is a binary64 [float]; [>=] is [PrimFloat.leb] with
      the operands swapped.
    - A [dict] keyed by strings is a [gmap string _]; a [set] of strings is
      a [gset string].
    - The interpreter state that the handlers touch is a [World]: the
      [SESSIONS] dictionary and the read positions in the three sources of
      outside input (the random module, the operating system's entropy and
      the text-generation collaborator).  Handlers are computations in a
      state monad whose results are either a value or a raised exception. *)

From Stdlib Require Import Ascii String Floats.PrimFloat.
From stdpp Require Import gmap strings list sorting pretty.


(** ** Strings *)

Module PyStr.

Definition code (c : ascii) : N := N_of_ascii c.

Definition between (lo hi : N) (c : ascii) : bool :=
  ((lo <=? code c) && (code c <=? hi))%N.

(** Unicode general categories Lu, Ll, Lt, Lm, Lo on code points 0..255. *)
Definition char_isalpha (c : ascii) : bool :=
  between 65 90 c || between 97 122 c
  || (code c =? 170)%N || (code c =? 181)%N || (code c =? 186)%N
  || between 192 214 c || between 216 246 c || between 248 255 c.

(** The characters removed by [str.strip()] on code points 0..255. *)
Definition char_isspace (c : ascii) : bool :=
  between 9 13 c || between 28 32 c
  || (code c =? 133)%N || (code c =? 160)%N.

Definition char_isupper (c : ascii) : bool :=
  between 65 90 c || between 192 214 c || between 216 222 c.

Definition char_lower (c : ascii) : ascii :=
  if char_isupper c then ascii_of_N (code c + 32) else c.

(** [s.lower()] *)
Fixpoint lower (s : string) : string :=
  match s with
  | EmptyString => EmptyString
  | String c s' => String (char_lower c) (lower s')
  end.

(** [s.lstrip()] *)
Fixpoint lstrip (s : string) : string :=
  match s with
  | EmptyString => EmptyString
  | String c s' => if char_isspace c then lstrip s' else s
  end.

(** [s.rstrip()] *)
Fixpoint rstrip (s : string) : string :=
  match s with
  | EmptyString => EmptyString
  | String c s' =>
      match rstrip s' with
      | EmptyString => if char_isspace c then EmptyString else String c EmptyString
      | r => String c r
      end
  end.

(** [s.strip()] *)
Definition strip (s : string) : string := rstrip (lstrip s).

Fixpoint all_chars (p : ascii → bool) (s : string) : bool :=
  match s with
  | EmptyString => true
  | String c s' => p c && all_chars p s'
  end.

(** [s.isalpha()]: at least one character, and every one a letter. *)
Definition isalpha (s : string) : bool :=
  match s with
  | EmptyString => false
  | _ => all_chars char_isalpha s
  end.

(** [len(s)] *)
Definition len (s : string) : nat := String.length s.

(** The order of [sorted] on characters: by code point. *)
Definition char_le (c1 c2 : ascii) : Prop := (code c1 ≤ code c2)%N.

Global Instance char_le_dec : RelDecision char_le.
Proof. intros c1 c2. unfold char_le. apply _. Defined.

(** [sorted(s)], the list of the characters of [s] in ascending order. *)
Definition sorted_chars (s : string) : list ascii :=
  merge_sort char_le (list_ascii_of_string s).

(** ["".join(cs)] for a list of characters. *)
Definition join_chars (cs : list ascii) : string := string_of_list_ascii cs.

(** [sorted(l)] on a list of strings: the lexicographic order on code
    points, a proper prefix before its extensions. *)
Definition sorted_strings (l : list string) : list string :=
  merge_sort String.le l.

End PyStr.

(** ** The anagram index *)

Definition SEED_LEN : nat := 5.

(** [signature(w) = "".join(sorted(w))] *)
Definition signature (w : string) : string :=
  PyStr.join_chars (PyStr.sorted_chars w).

(** [x >= y] on floats. *)
Definition float_ge (x y : float) : bool := PrimFloat.leb y x.

(** [idx.setdefault(signature(w), []).append(w)] *)
Definition setdefault_append
    (idx : gmap string (list string)) (w : string) : gmap string (list string) :=
  let k := signature w in
  match idx !! k with
  | Some l => <[k := l ++ [w]]> idx
  | None => <[k := [w]]> idx
  end.

(** [sorted(list(set(l)))] *)
Definition sorted_set (l : list string) : list string :=
  PyStr.sorted_strings (elements (list_to_set l : gset string)).

Section Index.

(** The word-frequency collaborator: [top_n_list("en", n)] and
    [zipf_frequency(w, "en")]. *)
Context (top_n_list : Z → list string) (zipf_frequency : string → float).

Definition build_five_index (limit_vocab : Z) (min_zipf : float)
    : list string * gmap string (list string) :=
  let words := PyStr.lower <$> filter (λ w, PyStr.isalpha w) (top_n_list limit_vocab) in
  let five :=
    filter (λ w, PyStr.len w = SEED_LEN ∧ float_ge (zipf_frequency w) min_zipf)
           words in
  let idx := foldl setdefault_append ∅ five in
  let idx := sorted_set <$> idx in
  (five, idx).

End Index.

(** ** JSON values

    The values that [request.get_json] hands to a handler and that
    [jsonify] serialises.  A JSON object is the list of the items of the
    [dict] it is parsed to. *)

#[local] Set Warnings "-register-all,-clear-no-such-hyp".

Inductive json : Type :=
| JNull
| JBool (b : bool)
| JInt (n : Z)
| JFloat (x : float)
| JStr (s : string)
| JArr (l : list json)
| JObj (items : list (string * json)).

Fixpoint assoc (k : string) (items : list (string * json)) : option json :=
  match items with
  | [] => None
  | (k', v) :: rest => if decide (k' = k) then Some v else assoc k rest
  end.

(** Truth value of a parsed JSON value ([not v] is its negation). *)
Definition truthy (v : json) : bool :=
  match v with
  | JNull => false
  | JBool b => b
  | JInt n => negb (n =? 0)%Z
  | JFloat x => negb (PrimFloat.eqb x 0%float)
  | JStr s => negb (bool_decide (s = ""))
  | JArr l => match l with [] => false | _ :: _ => true end
  | JObj items => match items with [] => false | _ :: _ => true end
  end.

Section Str.

(** The interpreter's rendering of floats, lists and dicts, which the
    handlers never inspect. *)
Context (py_repr : json → string).

(** [str(v)] *)
Definition py_str (v : json) : string :=
  match v with
  | JNull => "None"
  | JBool true => "True"
  | JBool false => "False"
  | JInt n => pretty n
  | JStr s => s
  | JFloat _ | JArr _ | JObj _ => py_repr v
  end.

End Str.

(** ** Exceptions, results and the interpreter state *)

Inductive exn : Set := IndexError | KeyError | TypeError | AttributeError.

Inductive result (A : Type) : Type :=
| Ok (a : A)
| Raise (e : exn).
Global Arguments Ok {A} a.
Global Arguments Raise {A} e.

(** The [GameState] dataclass. *)
Record GameState : Type := mkGameState {
  topic : string;
  letters : string;
  scrambled : string;
  targets : list string;
  found : list string
}.

Record World : Type := mkWorld {
  SESSIONS : gmap string GameState;
  rand_pos : nat;
  urandom_pos : nat;
  llm_pos : nat
}.

Definition M (A : Type) : Type := World → result A * World.

Global Instance M_ret : MRet M := λ A a W, (Ok a, W).

Global Instance M_bind : MBind M := λ A B f m W,
  match m W with
  | (Ok a, W') => f a W'
  | (Raise e, W') => (Raise e, W')
  end.

Definition raise {A} (e : exn) : M A := λ W, (Raise e, W).

(** [try: body except Exception: handler] *)
Definition try_except {A} (body : M A) (handler : M A) : M A := λ W,
  match body W with
  | (Ok a, W') => (Ok a, W')
  | (Raise _, W') => handler W'
  end.

Definition get_sessions : M (gmap string GameState) := λ W, (Ok (SESSIONS W), W).

(** [SESSIONS[sid] = gs] *)
Definition store_session (sid : string) (gs : GameState) : M unit := λ W,
  (Ok tt, mkWorld (<[sid := gs]> (SESSIONS W)) (rand_pos W) (urandom_pos W) (llm_pos W)).

(** Replies of the text-generation collaborator to one request. *)
Inductive llm_reply : Type :=
| LlmRaised
| LlmText (content : string).

(** The HTTP surface: a JSON body and a status code. *)
Definition response : Type := json * nat.

(** [jsonify({"error": "invalid session"}), 400] *)
Definition invalid_session : response :=
  (JObj [("error", JStr "invalid session")], 400).

(** [jsonify] of a list of strings. *)
Definition json_strings (l : list string) : json := JArr (JStr <$> l).

(** The reply of [new_game] for the session [gs] stored under [sid]. *)
Definition new_game_reply (sid : string) (gs : GameState) : response :=
  (JObj [("session_id", JStr sid);
         ("topic", JStr (topic gs));
         ("scrambled", JStr (scrambled gs));
         ("letters", JStr (letters gs));
         ("answer_count", JInt (Z.of_nat (length (targets gs))))], 200).

(** The reply of [guess]; [gs] is the session after the guess. *)
Definition guess_reply (ok : bool) (gs : GameState) : response :=
  (JObj [("correct", JBool ok);
         ("found", json_strings (found gs));
         ("remaining",
          JInt (Z.of_nat (length (targets gs)) - Z.of_nat (length (found gs))));
         ("complete",
          JBool (bool_decide (length (found gs) = length (targets gs))))], 200).

(** The reply of [state]. *)
Definition state_reply (gs : GameState) : response :=
  (JObj [("topic", JStr (topic gs));
         ("scrambled", JStr (scrambled gs));
         ("letters", JStr (letters gs));
         ("found", json_strings (found gs));
         ("total", JInt (Z.of_nat (length (targets gs))))], 200).

(** A member of the JSON object of a reply, and its status code. *)
Definition field (k : string) (r : response) : option json :=
  match r.1 with
  | JObj items => assoc k items
  | _ => None
  end.

Definition status (r : response) : nat := r.2.

(** ** Session identifiers: [uuid.uuid4().hex] *)

Definition hex_digit (d : N) : ascii :=
  ascii_of_N (if (d <? 10)%N then 48 + d else 87 + d).

(** The [n] least significant hexadecimal digits of [v], most significant
    first, as ['%0nx' % v] prints them when [v < 16 ^ n]. *)
Fixpoint hex_digits (n : nat) (v : N) : string :=
  match n with
  | O => EmptyString
  | S n' =>
      String (hex_digit (N.shiftr v (4 * N.of_nat n') mod 16)%N) (hex_digits n' v)
  end.

(** [UUID(bytes=b, version=4).int] where [r] is [int.from_bytes(b)]. *)
Definition uuid4_int (r : N) : N :=
  let i := (r mod 2 ^ 128)%N in
  let i := N.ldiff i (N.shiftl 0xc000 48) in
  let i := N.lor i (N.shiftl 0x8000 48) in
  let i := N.ldiff i (N.shiftl 0xf000 64) in
  N.lor i (N.shiftl 4 76).

Definition uuid4_hex (r : N) : string := hex_digits 32 (uuid4_int r).

(** ** The game *)

Section Game.

(** Collaborators and configuration. *)
Context (top_n_list : Z → list string) (zipf_frequency : string → float).
Context (LIMIT_VOCAB : Z) (MIN_ZIPF : float) (DISABLE_LLM : bool).
Context (py_repr : json → string).
(** [rand n]: the [n]-th draw of the [random] module, reduced modulo the
    bound it is asked for; [urandom n]: the [n]-th 16-byte block of
    [os.urandom], as an integer; [llm n]: the collaborator's reply to the
    [n]-th request; [extract txt]: [blob["topic"]] and [blob["word"]] of
    [blob = json.loads(re.search(r"\{.*\}", txt, re.S).group(0))], or
    [None] when one of these steps raises. *)
Context (rand : nat → nat) (urandom : nat → N) (llm : nat → llm_reply).
Context (extract : string → option (json * json)).

Definition FIVE_WORDS : list string :=
  (build_five_index top_n_list zipf_frequency LIMIT_VOCAB MIN_ZIPF).1.

Definition ANAGRAM5_INDEX : gmap string (list string) :=
  (build_five_index top_n_list zipf_frequency LIMIT_VOCAB MIN_ZIPF).2.

(** [ANAGRAM5_INDEX.get(letters_sorted, [])] *)
Definition five_letter_anagrams (letters_sorted : string) : list string :=
  default [] (ANAGRAM5_INDEX !! letters_sorted).

(** [random._randbelow(n)] for [n > 0] *)
Definition randbelow (n : nat) : M nat := λ W,
  (Ok (rand (rand_pos W) `mod` n),
   mkWorld (SESSIONS W) (S (rand_pos W)) (urandom_pos W) (llm_pos W)).

(** [random.choice(seq)] *)
Definition choice {A} (seq : list A) : M A :=
  match seq with
  | [] => raise IndexError
  | _ :: _ =>
      i ← randbelow (length seq);
      match seq !! i with
      | Some a => mret a
      | None => raise IndexError
      end
  end.

(** [x[i], x[j] = x[j], x[i]] *)
Definition swap {A} (x : list A) (i j : nat) : M (list A) :=
  match x !! j, x !! i with
  | Some xj, Some xi => mret (<[j := xi]> (<[i := xj]> x))
  | _, _ => raise IndexError
  end.

(** The loop of [random.shuffle(x)]:
    [for i in reversed(range(1, len(x))): j = randbelow(i + 1); swap]. *)
Fixpoint shuffle_from {A} (i : nat) (x : list A) : M (list A) :=
  match i with
  | O => mret x
  | S i' =>
      j ← randbelow (S i);
      x' ← swap x i j;
      shuffle_from i' x'
  end.

Definition shuffle {A} (x : list A) : M (list A) :=
  shuffle_from (length x - 1) x.

Definition scramble (letters_sorted : string) : M string :=
  arr ← shuffle (list_ascii_of_string letters_sorted);
  mret (PyStr.join_chars arr).

(** [uuid.uuid4().hex] *)
Definition fresh_sid : M string := λ W,
  (Ok (uuid4_hex (urandom (urandom_pos W))),
   mkWorld (SESSIONS W) (rand_pos W) (S (urandom_pos W)) (llm_pos W)).

(** One [client.chat.completions.create(...)] round trip. *)
Definition llm_request : M llm_reply := λ W,
  (Ok (llm (llm_pos W)),
   mkWorld (SESSIONS W) (rand_pos W) (urandom_pos W) (S (llm_pos W))).

Definition _fallback_topic_word : M (string * string) :=
  topic ← choice ["animals"; "music"; "space"; "sports"; "food"];
  match FIVE_WORDS with
  | _ :: _ => word ← choice FIVE_WORDS; mret (topic, word)
  | [] => mret (topic, "tiger")
  end.

(** The validation after the [try] block. *)
Definition valid_word (word : string) : bool :=
  PyStr.isalpha word && bool_decide (PyStr.len word = SEED_LEN)
  && float_ge (zipf_frequency word) MIN_ZIPF.

(** The body of the [try] block: [None] stands for [continue] from the
    [except Exception] clause. *)
Definition attempt : M (option (string * string)) :=
  r ← llm_request;
  match r with
  | LlmRaised => mret None
  | LlmText content =>
      match extract (PyStr.strip content) with
      | None => mret None
      | Some (t, w) =>
          mret (Some (PyStr.strip (py_str py_repr t),
                      PyStr.lower (PyStr.strip (py_str py_repr w))))
      end
  end.

(** [for _ in range(n): ...] followed by the final fallback. *)
Fixpoint attempts (n : nat) : M (string * string) :=
  match n with
  | O => _fallback_topic_word
  | S n' =>
      a ← attempt;
      match a with
      | Some (topic, word) =>
          if valid_word word then mret (topic, word) else attempts n'
      | None => attempts n'
      end
  end.

(** What one iteration of the loop makes of a reply: the pair it returns,
    or [None] when it goes on to the next iteration. *)
Definition reply_outcome (r : llm_reply) : option (string * string) :=
  match r with
  | LlmRaised => None
  | LlmText content =>
      match extract (PyStr.strip content) with
      | None => None
      | Some (t, w) =>
          let word := PyStr.lower (PyStr.strip (py_str py_repr w)) in
          if valid_word word
          then Some (PyStr.strip (py_str py_repr t), word)
          else None
      end
  end.

Definition ask_tinyllama_topic_and_word : M (string * string) :=
  if DISABLE_LLM || bool_decide (FIVE_WORDS = [])
  then _fallback_topic_word
  else attempts 3.

(** [POST /api/game/new].  [targets] is the list object of the index
    itself; nothing ever writes to it.  [found] is a fresh empty list. *)
Definition new_game : M response :=
  '(topic, word) ← try_except ask_tinyllama_topic_and_word _fallback_topic_word;
  '(topic, word) ←
    (if bool_decide (PyStr.len word ≠ SEED_LEN)
     then _fallback_topic_word else mret (topic, word));
  let letters := PyStr.join_chars (PyStr.sorted_chars word) in
  let targets := five_letter_anagrams letters in
  '(topic, letters, targets) ←
    match targets with
    | [] =>
        '(topic, word) ← _fallback_topic_word;
        let letters := PyStr.join_chars (PyStr.sorted_chars word) in
        mret (topic, letters, five_letter_anagrams letters)
    | _ :: _ => mret (topic, letters, targets)
    end;
  scram ← scramble letters;
  sid ← fresh_sid;
  let gs := mkGameState topic letters scram targets [] in
  store_session sid gs;;
  mret (new_game_reply sid gs).

(** [data.get(key, default)]; [data] has a [get] method only when it is
    a [dict]. *)
Definition method_get (data : json) (key : string) (dflt : json) : M json :=
  match data with
  | JObj items => mret (default dflt (assoc key items))
  | _ => raise AttributeError
  end.

(** [sid in SESSIONS]: the key is hashed first, and lists and dicts are
    not hashable; no other value equals a string key. *)
Definition session_known (sid : json) : M bool :=
  match sid with
  | JStr s => sessions ← get_sessions; mret (bool_decide (is_Some (sessions !! s)))
  | JArr _ | JObj _ => raise TypeError
  | JNull | JBool _ | JInt _ | JFloat _ => mret false
  end.

(** [SESSIONS[sid]] *)
Definition session_lookup (sid : json) : M (string * GameState) :=
  match sid with
  | JStr s =>
      sessions ← get_sessions;
      match sessions !! s with
      | Some gs => mret (s, gs)
      | None => raise KeyError
      end
  | JArr _ | JObj _ => raise TypeError
  | JNull | JBool _ | JInt _ | JFloat _ => raise KeyError
  end.

(** [str(v).lower().strip()] *)
Definition normalize (v : json) : string :=
  PyStr.strip (PyStr.lower (py_str py_repr v)).

(** The test of a guess against a session. *)
Definition guess_ok (gs : GameState) (g : string) : bool :=
  bool_decide (PyStr.len g = SEED_LEN)
  && bool_decide (g ∈ targets gs)
  && bool_decide (signature g = letters gs).

(** [gs.found.append(g)] on the session stored under [sid]. *)
Definition found_append (gs : GameState) (g : string) : GameState :=
  mkGameState (topic gs) (letters gs) (scrambled gs) (targets gs) (found gs ++ [g]).

(** [POST /api/game/guess] with the parsed body [data].  [gs] is the
    object held by [SESSIONS], so the append is a write to the store. *)
Definition guess (data : json) : M response :=
  sid ← method_get data "session_id" JNull;
  gv ← method_get data "guess" (JStr "");
  let g := normalize gv in
  invalid ← (if negb (truthy sid) then mret true
             else known ← session_known sid; mret (negb known));
  if invalid : bool then mret invalid_session
  else
    '(key, gs) ← session_lookup sid;
    let ok := guess_ok gs g in
    gs ← (if ok && negb (bool_decide (g ∈ found gs))
          then let gs' := found_append gs g in store_session key gs';; mret gs'
          else mret gs);
    mret (guess_reply ok gs).

(** [GET /api/game/state]; [arg] is the [session_id] query parameter. *)
Definition state (arg : option string) : M response :=
  let sid := default "" arg in
  sessions ← get_sessions;
  match sessions !! sid with
  | None => mret invalid_session
  | Some gs =>
      mret (state_reply gs)
  end.

(** The requests of the HTTP surface that touch the session store. *)
Inductive request : Type :=
| NewGame
| Guess (data : json)
| State (arg : option string).

Definition handle (r : request) : M response :=
  match r with
  | NewGame => new_game
  | Guess data => guess data
  | State arg => state arg
  end.

(** The interpreter state after start-up. *)
Definition initial : World := mkWorld ∅ 0 0 0.

(** States of the process: those that a sequence of requests leads to,
    whether a request is answered or ends in an exception. *)
Inductive reachable : World → Prop :=
| reachable_initial : reachable initial
| reachable_step W r : reachable W → reachable (handle r W).2.

(** What every stored session satisfies. *)
Record session_inv (gs : GameState) : Prop := {
  inv_targets : targets gs = five_letter_anagrams (letters gs);
  inv_nodup : NoDup (found gs);
  inv_subset : found gs ⊆ targets gs
}.

End Game.

(** ** A small concrete deployment, used to run the model *)

Module Example.

Definition top_n_list (n : Z) : list string :=
  ["Aster"; "rates"; "stare"; "tears"; "tiger"; "rates"; "hello"; "false";
   "fleas"; "it's"; "abc"; "world"].

Definition zipf_frequency (w : string) : float :=
  if decide (w = "world") then 2.5%float else 4.5%float.

Definition LIMIT_VOCAB : Z := 50000.
Definition MIN_ZIPF : float := 3.5%float.

Definition py_repr (v : json) : string := "?".
Definition rand (n : nat) : nat := 7 * n + 3.
Definition urandom (n : nat) : N := 12345 + N.of_nat n.
Definition llm (n : nat) : llm_reply := LlmRaised.
Definition extract (txt : string) : option (json * json) := None.

(** The deployment, with the collaborator disabled. *)
Definition run (r : request) : M response :=
  handle top_n_list zipf_frequency LIMIT_VOCAB MIN_ZIPF true py_repr
         rand urandom llm extract r.

Definition is_reachable : World → Prop :=
  reachable top_n_list zipf_frequency LIMIT_VOCAB MIN_ZIPF true py_repr
            rand urandom llm extract.

(** The process after one, and after two, new games. *)
Definition world1 : World := (run NewGame initial).2.
Definition world2 : World := (run NewGame world1).2.

(** The identifiers of the two sessions. *)
Definition sid1 : string := "00000000000040008000000000003039".
Definition sid2 : string := "0000000000004000800000000000303a".

(** The session that the first new game stores. *)
Definition session1 : GameState :=
  mkGameState "sports" "aerst" "tsear" ["aster"; "rates"; "stare"; "tears"] [].

(** The body [{"session_id": sid, "guess": g}]. *)
Definition body (sid g : json) : list (string * json) :=
  [("session_id", sid); ("guess", g)].

(** A collaborator that fails, then sends text without an object, then
    sends a reply from which the parser gets a topic and a word. *)
Definition llm2 (n : nat) : llm_reply :=
  match n with
  | 0 => LlmRaised
  | 1 => LlmText "no object here"
  | _ => LlmText " reply "
  end.

Definition extract2 (txt : string) : option (json * json) :=
  if decide (txt = "reply") then Some (JStr "animals ", JStr " Tiger") else None.

(** A deployment whose vocabulary is empty. *)
Definition no_words (n : Z) : list string := [].

Definition run_no_words (r : request) : M response :=
  handle no_words zipf_frequency LIMIT_VOCAB MIN_ZIPF true py_repr
         rand urandom llm extract r.

End Example.

(** ** Facts about strings *)

Module PyStrFacts.
Import PyStr.

Lemma char_lower_isalpha c : char_isalpha c → char_isalpha (char_lower c).
Proof. destruct c as [[] [] [] [] [] [] [] []]; vm_compute; exact id. Qed.

Lemma char_lower_idem c : char_lower (char_lower c) = char_lower c.
Proof. destruct c as [[] [] [] [] [] [] [] []]; vm_compute; reflexivity. Qed.

Lemma lower_length s : len (lower s) = len s.
Proof. unfold len. induction s as [|c s IH]; simpl; congruence. Qed.

Lemma lower_idem s : lower (lower s) = lower s.
Proof.
  induction s as [|c s IH]; simpl; [done|].
  by rewrite char_lower_idem, IH.
Qed.

Lemma lower_all_alpha s :
  all_chars char_isalpha s → all_chars char_isalpha (lower s).
Proof.
  induction s as [|c s IH]; simpl; [done|].
  intros [Hc Hs]%andb_True. apply andb_True. split.
  - by apply char_lower_isalpha.
  - by apply IH.
Qed.

Lemma lower_isalpha s : isalpha s → isalpha (lower s).
Proof.
  destruct s as [|c s]; [done|]. intros H.
  change (Is_true (all_chars char_isalpha (lower (String c s)))).
  by apply lower_all_alpha.
Qed.

Lemma alpha_not_space c : char_isalpha c → char_isspace c = false.
Proof. destruct c as [[] [] [] [] [] [] [] []]; vm_compute; tauto. Qed.

Lemma lstrip_alpha s : all_chars char_isalpha s → lstrip s = s.
Proof.
  destruct s as [|c s]; simpl; [done|].
  intros [Hc _]%andb_True. by rewrite (alpha_not_space c Hc).
Qed.

Lemma rstrip_alpha s : all_chars char_isalpha s → rstrip s = s.
Proof.
  induction s as [|c s IH]; simpl; [done|].
  intros [Hc Hs]%andb_True. rewrite (IH Hs), (alpha_not_space c Hc).
  by destruct s.
Qed.

Lemma strip_alpha s : all_chars char_isalpha s → strip s = s.
Proof. intros H. unfold strip. by rewrite lstrip_alpha, rstrip_alpha. Qed.

Lemma space_lower c : char_isspace (char_lower c) = char_isspace c.
Proof. destruct c as [[] [] [] [] [] [] [] []]; vm_compute; reflexivity. Qed.

Lemma lstrip_lower s : lstrip (lower s) = lower (lstrip s).
Proof.
  induction s as [|c s IH]; simpl; [done|].
  rewrite space_lower. by destruct (char_isspace c).
Qed.

Lemma rstrip_lower s : rstrip (lower s) = lower (rstrip s).
Proof.
  induction s as [|c s IH]; simpl; [done|].
  rewrite IH, space_lower.
  destruct (rstrip s); simpl; [|done]. by destruct (char_isspace c).
Qed.

Lemma strip_lower s : strip (lower s) = lower (strip s).
Proof. unfold strip. by rewrite lstrip_lower, rstrip_lower. Qed.

Lemma rstrip_idem s : rstrip (rstrip s) = rstrip s.
Proof.
  induction s as [|c s IH]; simpl; [done|].
  destruct (rstrip s) as [|d r] eqn:Hr.
  - destruct (char_isspace c) eqn:Hc; simpl; [done|]. by rewrite Hc.
  - change (rstrip (String c (String d r))) with
      (match rstrip (String d r) with
       | EmptyString =>
           if char_isspace c then EmptyString else String c EmptyString
       | r' => String c r'
       end).
    by rewrite IH.
Qed.

(** A string that does not start with white space. *)
Lemma lstrip_head s :
  match lstrip s with
  | EmptyString => True
  | String c _ => char_isspace c = false
  end.
Proof.
  induction s as [|c s IH]; simpl; [done|].
  by destruct (char_isspace c) eqn:Hc.
Qed.

Lemma rstrip_head s :
  match s with
  | EmptyString => True
  | String c _ => char_isspace c = false
  end →
  lstrip (rstrip s) = rstrip s.
Proof.
  destruct s as [|c s]; [done|]. intros Hc. simpl.
  destruct (rstrip s); rewrite ?Hc; simpl; by rewrite Hc.
Qed.

Lemma strip_idem s : strip (strip s) = strip s.
Proof.
  unfold strip. rewrite (rstrip_head (lstrip s) (lstrip_head s)).
  apply rstrip_idem.
Qed.

Lemma isalpha_all_chars s : isalpha s → all_chars char_isalpha s.
Proof. by destruct s. Qed.

Lemma code_inj c1 c2 : code c1 = code c2 → c1 = c2.
Proof.
  unfold code. intros H.
  by rewrite <-(ascii_N_embedding c1), <-(ascii_N_embedding c2), H.
Qed.

Global Instance char_le_trans : Transitive char_le.
Proof. unfold char_le. intros c1 c2 c3. lia. Qed.

Global Instance char_le_total : Total char_le.
Proof. unfold char_le. intros c1 c2. lia. Qed.

Global Instance char_le_antisymm : AntiSymm (=) char_le.
Proof. unfold char_le. intros c1 c2 H1 H2. apply code_inj. lia. Qed.

Lemma sorted_chars_Permutation s : sorted_chars s ≡ₚ list_ascii_of_string s.
Proof. apply merge_sort_Permutation. Qed.

Lemma sorted_chars_sorted s : StronglySorted char_le (sorted_chars s).
Proof. apply (StronglySorted_merge_sort _). Qed.

Lemma sorted_chars_of_Permutation s1 s2 :
  list_ascii_of_string s1 ≡ₚ list_ascii_of_string s2 →
  sorted_chars s1 = sorted_chars s2.
Proof.
  intros Hperm. apply (StronglySorted_unique char_le).
  - apply sorted_chars_sorted.
  - apply sorted_chars_sorted.
  - by rewrite !sorted_chars_Permutation.
Qed.

Lemma length_list_ascii s : length (list_ascii_of_string s) = len s.
Proof. unfold len. induction s as [|c s IH]; simpl; congruence. Qed.

End PyStrFacts.

(** ** Facts about signatures *)

Lemma signature_chars w : list_ascii_of_string (signature w) = PyStr.sorted_chars w.
Proof. apply list_ascii_of_string_of_list_ascii. Qed.

Lemma signature_of_Permutation w1 w2 :
  list_ascii_of_string w1 ≡ₚ list_ascii_of_string w2 → signature w1 = signature w2.
Proof.
  intros Hperm. unfold signature.
  by rewrite (PyStrFacts.sorted_chars_of_Permutation w1 w2 Hperm).
Qed.

Lemma signature_Permutation w :
  list_ascii_of_string (signature w) ≡ₚ list_ascii_of_string w.
Proof. rewrite signature_chars. apply PyStrFacts.sorted_chars_Permutation. Qed.

Lemma signature_idem w : signature (signature w) = signature w.
Proof. apply signature_of_Permutation, signature_Permutation. Qed.

Lemma signature_length w : PyStr.len (signature w) = PyStr.len w.
Proof.
  rewrite <-!PyStrFacts.length_list_ascii.
  apply Permutation_length, signature_Permutation.
Qed.

(** X1: the signature of a word holds the same characters as the word,
    each as often, in ascending order of code points; it has the length of
    the word, and taking the signature again changes nothing. *)
Theorem signature_is_the_sorted_word w :
  list_ascii_of_string (signature w) ≡ₚ list_ascii_of_string w
  ∧ StronglySorted PyStr.char_le (list_ascii_of_string (signature w))
  ∧ PyStr.len (signature w) = PyStr.len w
  ∧ signature (signature w) = signature w.
Proof.
  split; [apply signature_Permutation|]. split.
  - rewrite signature_chars. apply PyStrFacts.sorted_chars_sorted.
  - split; [apply signature_length|apply signature_idem].
Qed.

(** X2: two words have the same signature exactly when they are anagrams
    of each other, that is when one is a rearrangement of the characters
    of the other. *)
Theorem signature_eq_iff_anagram w1 w2 :
  signature w1 = signature w2
  ↔ list_ascii_of_string w1 ≡ₚ list_ascii_of_string w2.
Proof.
  split.
  - intros Heq.
    rewrite <-(signature_Permutation w1), <-(signature_Permutation w2).
    by rewrite Heq.
  - apply signature_of_Permutation.
Qed.

(** ** Facts about the anagram index *)

Section IndexFacts.

Context (top_n_list : Z → list string) (zipf_frequency : string → float).

Lemma sorted_set_elem l w : w ∈ sorted_set l ↔ w ∈ l.
Proof.
  unfold sorted_set, PyStr.sorted_strings.
  by rewrite merge_sort_Permutation, elem_of_elements, elem_of_list_to_set.
Qed.

Lemma sorted_set_NoDup l : NoDup (sorted_set l).
Proof.
  unfold sorted_set, PyStr.sorted_strings.
  rewrite merge_sort_Permutation. apply NoDup_elements.
Qed.

Lemma sorted_set_sorted l : StronglySorted String.le (sorted_set l).
Proof. apply (StronglySorted_merge_sort _). Qed.

Lemma setdefault_append_lookup idx w k :
  default [] (setdefault_append idx w !! k)
  = default [] (idx !! k) ++ (if decide (signature w = k) then [w] else []).
Proof.
  unfold setdefault_append.
  destruct (idx !! signature w) as [l|] eqn:Hl;
    (destruct (decide (signature w = k)) as [<-|Hne];
     [rewrite lookup_insert_eq, Hl; done
     |rewrite lookup_insert_ne by done; by rewrite app_nil_r]).
Qed.

Lemma setdefault_append_nonempty idx w :
  (∀ k l, idx !! k = Some l → l ≠ []) →
  ∀ k l, setdefault_append idx w !! k = Some l → l ≠ [].
Proof.
  intros Hidx k l. unfold setdefault_append.
  destruct (idx !! signature w) as [l'|] eqn:Hl';
    (destruct (decide (signature w = k)) as [<-|Hne];
     [rewrite lookup_insert_eq; intros [= <-]
     |rewrite lookup_insert_ne by done; apply Hidx]).
  - by destruct l'.
  - done.
Qed.

Lemma group_lookup ws idx k :
  default [] (foldl setdefault_append idx ws !! k)
  = default [] (idx !! k) ++ filter (λ w, signature w = k) ws.
Proof.
  revert idx. induction ws as [|w ws IH]; intros idx; simpl.
  - by rewrite app_nil_r.
  - rewrite IH, setdefault_append_lookup, <-(assoc_L (++)). f_equal.
    rewrite filter_cons. by destruct (decide (signature w = k)).
Qed.

Lemma group_nonempty ws idx :
  (∀ k l, idx !! k = Some l → l ≠ []) →
  ∀ k l, foldl setdefault_append idx ws !! k = Some l → l ≠ [].
Proof.
  revert idx. induction ws as [|w ws IH]; intros idx Hidx; simpl; [done|].
  apply IH. by apply setdefault_append_nonempty.
Qed.

(** The buckets of the grouping loop, started from the empty dict. *)
Lemma group_bucket ws k l :
  foldl setdefault_append ∅ ws !! k = Some l →
  l = filter (λ w, signature w = k) ws ∧ l ≠ [].
Proof.
  intros Hl. split.
  - pose proof (group_lookup ws ∅ k) as H.
    rewrite Hl, lookup_empty in H. done.
  - eapply (group_nonempty ws ∅); [|done]. intros ??. by rewrite lookup_empty.
Qed.

Lemma group_member ws w :
  w ∈ ws → ∃ l, foldl setdefault_append ∅ ws !! signature w = Some l ∧ w ∈ l.
Proof.
  intros Hw. pose proof (group_lookup ws ∅ (signature w)) as H.
  rewrite lookup_empty in H. simpl in H.
  assert (w ∈ filter (λ w0, signature w0 = signature w) ws) as Hin
    by (by apply list_elem_of_filter).
  destruct (foldl setdefault_append ∅ ws !! signature w) as [l|]; simpl in H.
  - exists l. by rewrite H.
  - rewrite <-H in Hin. by apply not_elem_of_nil in Hin.
Qed.

Section Built.

Context (limit_vocab : Z) (min_zipf : float).

Local Abbreviation five :=
  (build_five_index top_n_list zipf_frequency limit_vocab min_zipf).1.
Local Abbreviation idx :=
  (build_five_index top_n_list zipf_frequency limit_vocab min_zipf).2.

(** The words kept by the two filters. *)
Lemma five_spec w :
  w ∈ five ↔
  PyStr.len w = SEED_LEN ∧ float_ge (zipf_frequency w) min_zipf
  ∧ ∃ w0, w = PyStr.lower w0 ∧ PyStr.isalpha w0 ∧ w0 ∈ top_n_list limit_vocab.
Proof.
  simpl. rewrite list_elem_of_filter, list_elem_of_fmap.
  setoid_rewrite list_elem_of_filter. naive_solver.
Qed.

(** A bucket holds exactly the kept words with its key as signature. *)
Lemma index_bucket k l w :
  idx !! k = Some l → w ∈ l ↔ w ∈ five ∧ signature w = k.
Proof.
  simpl. rewrite lookup_fmap. intros Hl.
  destruct (foldl setdefault_append ∅ _ !! k) as [l0|] eqn:Hl0; [|done].
  simpl in Hl. injection Hl as <-.
  apply group_bucket in Hl0 as [-> _].
  rewrite sorted_set_elem, list_elem_of_filter. naive_solver.
Qed.

Lemma index_bucket_nonempty k l : idx !! k = Some l → l ≠ [].
Proof.
  simpl. rewrite lookup_fmap. intros Hl.
  destruct (foldl setdefault_append ∅ _ !! k) as [l0|] eqn:Hl0; [|done].
  simpl in Hl. injection Hl as <-.
  apply group_bucket in Hl0 as [_ Hne].
  destruct l0 as [|w l0]; [done|]. intros Hnil.
  assert (w ∈ sorted_set (w :: l0)) as Hin
    by (apply sorted_set_elem; left).
  rewrite Hnil in Hin. by apply not_elem_of_nil in Hin.
Qed.

(** Every kept word is in the bucket of its signature. *)
Lemma index_member w :
  w ∈ five → ∃ l, idx !! signature w = Some l ∧ w ∈ l.
Proof.
  intros Hw. destruct (group_member _ _ Hw) as (l & Hl & Hin).
  exists (sorted_set l). split.
  - simpl. rewrite lookup_fmap. simpl in Hl. by rewrite Hl.
  - by apply sorted_set_elem.
Qed.

Lemma index_bucket_sorted_set k l :
  idx !! k = Some l → ∃ l0, l = sorted_set l0.
Proof.
  simpl. rewrite lookup_fmap.
  destruct (foldl _ _ _ !! k) as [l0|]; [|done].
  intros [= <-]. by exists l0.
Qed.

Lemma index_bucket_NoDup k l : idx !! k = Some l → NoDup l.
Proof. intros [l0 ->]%index_bucket_sorted_set. apply sorted_set_NoDup. Qed.

(** C2: in the index that [build_five_index] returns, every word of
    every bucket has length exactly 5 and a frequency of at least
    [min_zipf]; its signature is the key of its bucket; and the list
    of a bucket has no duplicates and is in ascending order. *)
Theorem build_five_index_buckets k l :
  idx !! k = Some l →
  (∀ w, w ∈ l →
     PyStr.len w = 5 ∧ float_ge (zipf_frequency w) min_zipf = true
     ∧ signature w = k)
  ∧ NoDup l
  ∧ StronglySorted String.le l.
Proof.
  intros Hl. split; [|split].
  - intros w Hw. apply (index_bucket _ _ _ Hl) in Hw as [Hw Hsig].
    apply five_spec in Hw as (Hlen & Hz & _).
    split; [done|]. split; [by apply Is_true_true|done].
  - by eapply index_bucket_NoDup.
  - apply index_bucket_sorted_set in Hl as [l0 ->]. apply sorted_set_sorted.
Qed.

Lemma index_lookup_None k :
  idx !! k = None ↔ ∀ w, w ∈ five → signature w ≠ k.
Proof.
  split.
  - intros Hnone w Hw <-. destruct (index_member w Hw) as (l & Hl & _).
    congruence.
  - intros Hall. destruct (idx !! k) as [l|] eqn:Hl; [|done].
    pose proof (index_bucket_nonempty k l Hl) as Hne.
    destruct l as [|w l]; [done|].
    assert (w ∈ five ∧ signature w = k) as [Hw Hsig]
      by (apply (index_bucket k (w :: l) w Hl); left).
    by destruct (Hall w Hw).
Qed.

Lemma index_lookup_default k w :
  w ∈ default [] (idx !! k) ↔ w ∈ five ∧ signature w = k.
Proof.
  destruct (idx !! k) as [l|] eqn:Hl.
  - by apply index_bucket.
  - cbn [from_option]. split; [by intros ?%not_elem_of_nil|].
    intros [Hw Hsig]. by destruct (proj1 (index_lookup_None k) Hl w Hw).
Qed.

Lemma index_key_sorted k l : idx !! k = Some l → signature k = k.
Proof.
  intros Hl. pose proof (index_bucket_nonempty k l Hl) as Hne.
  destruct l as [|w l]; [done|].
  assert (w ∈ five ∧ signature w = k) as [_ <-]
    by (apply (index_bucket k (w :: l) w Hl); left).
  apply signature_idem.
Qed.

(** X3: a lookup in the index, with the empty list for a missing key,
    gives exactly the kept words whose signature is the key.  A key is
    missing exactly when no kept word has it as signature; a bucket that
    exists is not empty, and its key is a sorted string. *)
Theorem index_lookup_is_the_anagram_set k :
  (∀ w, w ∈ default [] (idx !! k) ↔ w ∈ five ∧ signature w = k)
  ∧ (idx !! k = None ↔ ∀ w, w ∈ five → signature w ≠ k)
  ∧ (∀ l, idx !! k = Some l → l ≠ [] ∧ signature k = k).
Proof.
  split; [apply index_lookup_default|]. split; [apply index_lookup_None|].
  intros l Hl. split; [by eapply index_bucket_nonempty|by eapply index_key_sorted].
Qed.

(** X4: every word of the list that [build_five_index] returns is a
    lowercased alphabetic word of the collaborator's list: it is purely
    alphabetic, has 5 characters, is unchanged by [lower] and by [strip],
    meets the frequency threshold, and sits in the bucket of its own
    signature. *)
Theorem kept_words_are_valid_and_indexed w :
  w ∈ five →
  PyStr.isalpha w = true
  ∧ PyStr.len w = 5
  ∧ PyStr.lower w = w
  ∧ PyStr.strip w = w
  ∧ float_ge (zipf_frequency w) min_zipf = true
  ∧ (∃ w0, w0 ∈ top_n_list limit_vocab ∧ w = PyStr.lower w0)
  ∧ ∃ l, idx !! signature w = Some l ∧ w ∈ l.
Proof.
  intros Hw. pose proof (index_member w Hw) as Hbucket.
  apply five_spec in Hw as (Hlen & Hz & w0 & -> & Halpha & Hin).
  assert (Is_true (PyStr.isalpha (PyStr.lower w0))) as Ha
    by (by apply PyStrFacts.lower_isalpha).
  split; [by apply Is_true_true|]. split; [done|].
  split; [apply PyStrFacts.lower_idem|].
  split; [by apply PyStrFacts.strip_alpha, PyStrFacts.isalpha_all_chars|].
  split; [by apply Is_true_true|]. split; [by exists w0|done].
Qed.

End Built.

End IndexFacts.

(** ** Facts about the monad *)

Lemma bind_ok {A B} (m : M A) (k : A → M B) W a W' :
  m W = (Ok a, W') → (m ≫= k) W = k a W'.
Proof. intros H. unfold mbind, M_bind. by rewrite H. Qed.

Lemma bind_raise {A B} (m : M A) (k : A → M B) W e W' :
  m W = (Raise e, W') → (m ≫= k) W = (Raise e, W').
Proof. intros H. unfold mbind, M_bind. by rewrite H. Qed.

Lemma try_except_ok {A} (body handler : M A) W a W' :
  body W = (Ok a, W') → try_except body handler W = (Ok a, W').
Proof. intros H. unfold try_except. by rewrite H. Qed.

(** ** Facts about the picker and the handlers *)

Section GameFacts.

Context (top_n_list : Z → list string) (zipf_frequency : string → float).
Context (LIMIT_VOCAB : Z) (MIN_ZIPF : float) (DISABLE_LLM : bool).
Context (py_repr : json → string).
Context (rand : nat → nat) (urandom : nat → N) (llm : nat → llm_reply).
Context (extract : string → option (json * json)).

Local Abbreviation FIVE_WORDS :=
  (FIVE_WORDS top_n_list zipf_frequency LIMIT_VOCAB MIN_ZIPF).
Local Abbreviation ANAGRAM5_INDEX :=
  (ANAGRAM5_INDEX top_n_list zipf_frequency LIMIT_VOCAB MIN_ZIPF).
Local Abbreviation five_letter_anagrams :=
  (five_letter_anagrams top_n_list zipf_frequency LIMIT_VOCAB MIN_ZIPF).
Local Abbreviation randbelow := (randbelow rand).
Local Abbreviation choice := (choice rand).
Local Abbreviation shuffle_from := (shuffle_from rand).
Local Abbreviation shuffle := (shuffle rand).
Local Abbreviation scramble := (scramble rand).
Local Abbreviation fresh_sid := (fresh_sid urandom).
Local Abbreviation llm_request := (llm_request llm).
Local Abbreviation _fallback_topic_word :=
  (_fallback_topic_word top_n_list zipf_frequency LIMIT_VOCAB MIN_ZIPF rand).
Local Abbreviation valid_word := (valid_word zipf_frequency MIN_ZIPF).
Local Abbreviation attempt := (attempt py_repr llm extract).
Local Abbreviation reply_outcome :=
  (reply_outcome zipf_frequency MIN_ZIPF py_repr extract).
Local Abbreviation attempts :=
  (attempts top_n_list zipf_frequency LIMIT_VOCAB MIN_ZIPF py_repr rand llm extract).
Local Abbreviation ask_tinyllama_topic_and_word :=
  (ask_tinyllama_topic_and_word top_n_list zipf_frequency LIMIT_VOCAB MIN_ZIPF
     DISABLE_LLM py_repr rand llm extract).
Local Abbreviation new_game :=
  (new_game top_n_list zipf_frequency LIMIT_VOCAB MIN_ZIPF DISABLE_LLM py_repr
     rand urandom llm extract).
Local Abbreviation normalize := (normalize py_repr).
Local Abbreviation guess := (guess py_repr).
Local Abbreviation handle :=
  (handle top_n_list zipf_frequency LIMIT_VOCAB MIN_ZIPF DISABLE_LLM py_repr
     rand urandom llm extract).
Local Abbreviation reachable :=
  (reachable top_n_list zipf_frequency LIMIT_VOCAB MIN_ZIPF DISABLE_LLM py_repr
     rand urandom llm extract).
Local Abbreviation session_inv :=
  (session_inv top_n_list zipf_frequency LIMIT_VOCAB MIN_ZIPF).

(** *** Randomness *)

Lemma choice_ok {A} (seq : list A) W :
  seq ≠ [] →
  ∃ a W', choice seq W = (Ok a, W') ∧ a ∈ seq
          ∧ SESSIONS W' = SESSIONS W ∧ llm_pos W' = llm_pos W.
Proof.
  intros Hne. destruct seq as [|x seq]; [done|]. unfold choice.
  set (l := x :: seq).
  assert (rand (rand_pos W) `mod` length l < length l) as Hlt
    by (apply Nat.mod_upper_bound; simpl; lia).
  destruct (lookup_lt_is_Some_2 l _ Hlt) as [a Ha].
  eexists a, _. split; [|split; [|split]].
  - erewrite bind_ok by reflexivity. rewrite Ha. reflexivity.
  - by eapply list_elem_of_lookup_2.
  - done.
  - done.
Qed.

Lemma swap_ok {A} (x : list A) i j W :
  i < length x → j < length x →
  ∃ x', swap x i j W = (Ok x', W) ∧ length x' = length x.
Proof.
  intros Hi Hj. unfold swap.
  destruct (lookup_lt_is_Some_2 x _ Hi) as [xi ->].
  destruct (lookup_lt_is_Some_2 x _ Hj) as [xj ->].
  eexists. split; [reflexivity|]. by rewrite !length_insert.
Qed.

Lemma shuffle_from_S {A} i (x : list A) :
  shuffle_from (S i) x
  = (j ← randbelow (S (S i)); x' ← swap x (S i) j; shuffle_from i x').
Proof. reflexivity. Qed.

Lemma shuffle_from_ok {A} i (x : list A) W :
  i < length x →
  ∃ x' W', shuffle_from i x W = (Ok x', W')
           ∧ SESSIONS W' = SESSIONS W ∧ llm_pos W' = llm_pos W.
Proof.
  revert x W. induction i as [|i IH]; intros x W Hi.
  - by eexists x, W.
  - rewrite shuffle_from_S.
    erewrite bind_ok by reflexivity.
    assert (rand (rand_pos W) `mod` S (S i) < length x) as Hj.
    { pose proof (Nat.mod_upper_bound (rand (rand_pos W)) (S (S i))). lia. }
    destruct (swap_ok x (S i) _
                (mkWorld (SESSIONS W) (S (rand_pos W)) (urandom_pos W) (llm_pos W))
                Hi Hj) as (x' & Hswap & Hlen).
    erewrite bind_ok by exact Hswap.
    destruct (IH x' (mkWorld (SESSIONS W) (S (rand_pos W)) (urandom_pos W) (llm_pos W)))
      as (x'' & W' & Hrun & HS & HL); [lia|].
    by eexists x'', W'.
Qed.

Lemma scramble_ok letters_sorted W :
  ∃ s W', scramble letters_sorted W = (Ok s, W')
          ∧ SESSIONS W' = SESSIONS W ∧ llm_pos W' = llm_pos W.
Proof.
  unfold scramble, shuffle.
  destruct (list_ascii_of_string letters_sorted) as [|c cs] eqn:Hcs.
  - eexists _, W. by erewrite bind_ok by reflexivity.
  - destruct (shuffle_from_ok (length (c :: cs) - 1) (c :: cs) W)
      as (x' & W' & Hrun & HS & HL); [simpl; lia|].
    eexists _, W'. by erewrite bind_ok by exact Hrun.
Qed.

(** *** The picker *)

Lemma FIVE_WORDS_valid w :
  w ∈ FIVE_WORDS →
  PyStr.isalpha w ∧ PyStr.len w = 5 ∧ PyStr.lower w = w ∧ valid_word w.
Proof.
  intros (Hlen & Hz & w0 & -> & Halpha & _)%five_spec.
  assert (Is_true (PyStr.isalpha (PyStr.lower w0))) as Ha
    by (by apply PyStrFacts.lower_isalpha).
  split; [done|]. split; [done|]. split; [apply PyStrFacts.lower_idem|].
  unfold valid_word. rewrite !andb_True, bool_decide_spec. done.
Qed.

Lemma fallback_ok W :
  ∃ topic word W',
    _fallback_topic_word W = (Ok (topic, word), W')
    ∧ SESSIONS W' = SESSIONS W ∧ llm_pos W' = llm_pos W
    ∧ (word ∈ FIVE_WORDS ∨ FIVE_WORDS = [] ∧ word = "tiger").
Proof.
  unfold _fallback_topic_word.
  destruct (choice_ok ["animals"; "music"; "space"; "sports"; "food"] W)
    as (t & W1 & Ht & _ & HS1 & HL1); [done|].
  erewrite bind_ok by exact Ht.
  destruct FIVE_WORDS as [|w0 ws] eqn:Hfive.
  - eexists t, "tiger", W1. split; [done|]. split; [done|]. split; [done|].
    by right.
  - destruct (choice_ok (w0 :: ws) W1) as (w & W2 & Hw & Hin & HS2 & HL2); [done|].
    erewrite bind_ok by exact Hw.
    eexists t, w, W2. split; [done|]. split; [congruence|]. split; [congruence|].
    by left.
Qed.

Lemma fallback_word_good W topic word W' :
  _fallback_topic_word W = (Ok (topic, word), W') →
  PyStr.isalpha word ∧ PyStr.len word = 5 ∧ PyStr.lower word = word.
Proof.
  intros Hrun. destruct (fallback_ok W) as (t & w & W1 & Hrun' & _ & _ & Hw).
  rewrite Hrun in Hrun'. injection Hrun' as -> -> ->.
  destruct Hw as [Hw|[_ ->]]; [|done].
  by destruct (FIVE_WORDS_valid _ Hw) as (? & ? & ? & _).
Qed.

Lemma attempt_ok W :
  ∃ a, attempt W
       = (Ok a, mkWorld (SESSIONS W) (rand_pos W) (urandom_pos W) (S (llm_pos W)))
       ∧ ∀ topic word, a = Some (topic, word) → PyStr.lower word = word.
Proof.
  unfold attempt. erewrite bind_ok by reflexivity.
  destruct (llm (llm_pos W)) as [|content]; [by eexists|].
  destruct (extract (PyStr.strip content)) as [[t w]|]; [|by eexists].
  eexists. split; [reflexivity|]. intros ?? [= _ <-].
  apply PyStrFacts.lower_idem.
Qed.

Lemma attempts_ok n W :
  ∃ topic word W',
    attempts n W = (Ok (topic, word), W')
    ∧ SESSIONS W' = SESSIONS W
    ∧ llm_pos W ≤ llm_pos W' ≤ llm_pos W + n
    ∧ (valid_word word ∧ PyStr.lower word = word
       ∨ word ∈ FIVE_WORDS ∨ FIVE_WORDS = [] ∧ word = "tiger").
Proof.
  revert W. induction n as [|n IH]; intros W.
  - destruct (fallback_ok W) as (t & w & W' & Hrun & HS & HL & Hw).
    exists t, w, W'. split; [done|]. split; [done|]. split; [lia|]. by right.
  - change (attempts (S n)) with
      (a ← attempt;
       match a with
       | Some (topic, word) =>
           if valid_word word then mret (topic, word) else attempts n
       | None => attempts n
       end).
    destruct (attempt_ok W) as (a & Ha & Hlow).
    erewrite bind_ok by exact Ha.
    set (W1 := mkWorld _ _ _ _).
    destruct (IH W1) as (t & w & W' & Hrun & HS & HL & Hw).
    assert (∃ topic word W',
               attempts n W1 = (Ok (topic, word), W') ∧ SESSIONS W' = SESSIONS W
               ∧ llm_pos W ≤ llm_pos W' ≤ llm_pos W + S n
               ∧ (valid_word word ∧ PyStr.lower word = word
                  ∨ word ∈ FIVE_WORDS ∨ FIVE_WORDS = [] ∧ word = "tiger")) as Hrest.
    { exists t, w, W'. split; [done|]. split; [done|]. split; [|done].
      subst W1. simpl in HL. lia. }
    destruct a as [[t0 w0]|]; [|done].
    destruct (valid_word w0) eqn:Hvalid; [|done].
    exists t0, w0, W1. split; [done|]. split; [done|]. split; [simpl; lia|].
    left. split; [by rewrite Hvalid|]. by eapply Hlow.
Qed.

Lemma ask_ok W :
  ∃ topic word W',
    ask_tinyllama_topic_and_word W = (Ok (topic, word), W')
    ∧ SESSIONS W' = SESSIONS W
    ∧ llm_pos W ≤ llm_pos W' ≤ llm_pos W + 3
    ∧ (valid_word word ∧ PyStr.lower word = word
       ∨ word ∈ FIVE_WORDS ∨ FIVE_WORDS = [] ∧ word = "tiger").
Proof.
  unfold ask_tinyllama_topic_and_word.
  destruct (DISABLE_LLM || bool_decide (FIVE_WORDS = [])).
  - destruct (fallback_ok W) as (t & w & W' & Hrun & HS & HL & Hw).
    exists t, w, W'. split; [done|]. split; [done|]. split; [lia|]. by right.
  - apply attempts_ok.
Qed.

(** C7: the picker always returns, never raises: whatever the
    collaborator replies (an error, text without a usable JSON object, a
    word that fails validation), it makes at most three requests and
    returns a pair whose word is purely alphabetic, exactly 5 characters
    long and lowercase; the word is a validated reply or a pick of the
    local fallback.  The session store is not touched. *)
Theorem picker_always_returns_valid_pair W :
  ∃ topic word W',
    ask_tinyllama_topic_and_word W = (Ok (topic, word), W')
    ∧ llm_pos W ≤ llm_pos W' ≤ llm_pos W + 3
    ∧ PyStr.isalpha word = true
    ∧ PyStr.len word = 5
    ∧ PyStr.lower word = word
    ∧ (valid_word word = true ∨ word ∈ FIVE_WORDS
       ∨ FIVE_WORDS = [] ∧ word = "tiger")
    ∧ SESSIONS W' = SESSIONS W.
Proof.
  destruct (ask_ok W) as (t & w & W' & Hrun & HS & HL & Hw).
  exists t, w, W'. split; [done|]. split; [done|].
  destruct Hw as [[Hv Hlow]|[Hin|[Hnil ->]]].
  - pose proof Hv as Hv'. unfold valid_word in Hv'.
    rewrite !andb_True, bool_decide_spec in Hv'. destruct Hv' as [[Ha Hlen] _].
    split; [by apply Is_true_true|]. split; [done|]. split; [done|].
    split; [left; by apply Is_true_true|done].
  - destruct (FIVE_WORDS_valid _ Hin) as (Ha & Hlen & Hlow & _).
    split; [by apply Is_true_true|]. split; [done|]. split; [done|].
    split; [by right; left|done].
  - split; [done|]. split; [done|]. split; [done|].
    split; [by right; right|done].
Qed.

(** *** Session creation *)

Lemma hex_digits_length n v : String.length (hex_digits n v) = n.
Proof. induction n as [|n IH]; simpl; congruence. Qed.

Lemma empty_vocabulary_no_anagrams k :
  FIVE_WORDS = [] → five_letter_anagrams k = [].
Proof.
  intros Hnil. unfold five_letter_anagrams.
  destruct (ANAGRAM5_INDEX !! k) as [l|] eqn:Hl; [|done]. simpl.
  destruct l as [|w l]; [done|].
  assert (w ∈ FIVE_WORDS) as Hw.
  { eapply (index_bucket top_n_list zipf_frequency LIMIT_VOCAB MIN_ZIPF k (w :: l) w);
      [exact Hl|left]. }
  rewrite Hnil in Hw. by apply not_elem_of_nil in Hw.
Qed.

Lemma vocabulary_word_has_anagrams w :
  w ∈ FIVE_WORDS → five_letter_anagrams (signature w) ≠ [].
Proof.
  intros Hw.
  destruct (index_member top_n_list zipf_frequency LIMIT_VOCAB MIN_ZIPF w Hw)
    as (l & Hl & Hin).
  unfold five_letter_anagrams.
  unfold ANAGRAM5_INDEX.
  rewrite Hl. simpl. intros ->. by apply not_elem_of_nil in Hin.
Qed.

Lemma anagrams_spec k w :
  w ∈ five_letter_anagrams k →
  PyStr.len w = 5 ∧ signature w = k ∧ w ∈ FIVE_WORDS.
Proof.
  unfold five_letter_anagrams.
  destruct (ANAGRAM5_INDEX !! k) as [l|] eqn:Hl; simpl;
    [|by intros ?%not_elem_of_nil].
  intros Hw.
  apply (index_bucket top_n_list zipf_frequency LIMIT_VOCAB MIN_ZIPF k l w Hl)
    in Hw as [Hw Hsig].
  split; [|done]. by apply five_spec in Hw as (Hlen & _).
Qed.

Lemma anagrams_NoDup k : NoDup (five_letter_anagrams k).
Proof.
  unfold five_letter_anagrams.
  destruct (ANAGRAM5_INDEX !! k) as [l|] eqn:Hl; simpl; [|apply NoDup_nil_2].
  by eapply index_bucket_NoDup.
Qed.

(** What one [new_game] call does: it returns, it stores one session
    with an empty [found] whose targets are the bucket of its letters,
    under an identifier of 32 characters, and it reports that session. *)
Lemma new_game_spec W :
  ∃ sid gs W',
    new_game W = (Ok (new_game_reply sid gs), W')
    ∧ SESSIONS W' = <[sid := gs]> (SESSIONS W)
    ∧ found gs = []
    ∧ targets gs = five_letter_anagrams (letters gs)
    ∧ String.length sid = 32
    ∧ (FIVE_WORDS ≠ [] → targets gs ≠ [])
    ∧ (FIVE_WORDS = [] → targets gs = [] ∧ letters gs = signature "tiger").
Proof.
  unfold new_game.
  (* the picker *)
  destruct (ask_ok W) as (t1 & w1 & W1 & Hask & HS1 & _ & _).
  erewrite bind_ok by (apply try_except_ok; exact Hask). cbv beta iota.
  (* the length check *)
  assert (∃ t2 w2 W2,
             (if bool_decide (PyStr.len w1 ≠ SEED_LEN)
              then _fallback_topic_word else mret (t1, w1)) W1
             = (Ok (t2, w2), W2) ∧ SESSIONS W2 = SESSIONS W)
    as (t2 & w2 & W2 & Hlen & HS2).
  { destruct (bool_decide (PyStr.len w1 ≠ SEED_LEN)).
    - destruct (fallback_ok W1) as (t & w & W2 & Hrun & HS & _ & _).
      exists t, w, W2. split; [done|congruence].
    - by exists t1, w1, W1. }
  erewrite bind_ok by exact Hlen. cbv beta iota zeta.
  fold (signature w2).
  (* the lookup in the index, and the second pick when it is empty *)
  assert (∃ t3 l3 W3,
             match five_letter_anagrams (signature w2) with
             | [] =>
                 '(topic, word) ← _fallback_topic_word;
                 mret (topic, PyStr.join_chars (PyStr.sorted_chars word),
                       five_letter_anagrams
                         (PyStr.join_chars (PyStr.sorted_chars word)))
             | _ :: _ =>
                 mret (t2, signature w2, five_letter_anagrams (signature w2))
             end W2
             = (Ok (t3, l3, five_letter_anagrams l3), W3)
             ∧ SESSIONS W3 = SESSIONS W
             ∧ (FIVE_WORDS ≠ [] → five_letter_anagrams l3 ≠ [])
             ∧ (FIVE_WORDS = [] → l3 = signature "tiger"))
    as (t3 & l3 & W3 & Htargets & HS3 & Hne & Htiger).
  { destruct (five_letter_anagrams (signature w2)) as [|x xs] eqn:Hfla.
    - destruct (fallback_ok W2) as (t & w & W3 & Hrun & HS & _ & Hw).
      erewrite bind_ok by exact Hrun. cbv beta iota. fold (signature w).
      exists t, (signature w), W3. split; [done|]. split; [congruence|]. split.
      + intros Hfive. destruct Hw as [Hw|[Hnil _]]; [|done].
        by apply vocabulary_word_has_anagrams.
      + intros Hnil. destruct Hw as [Hw|[_ ->]]; [|done].
        rewrite Hnil in Hw. by apply not_elem_of_nil in Hw.
    - exists t2, (signature w2), W2. rewrite Hfla.
      split; [done|]. split; [done|]. split; [done|].
      intros Hnil. by rewrite (empty_vocabulary_no_anagrams _ Hnil) in Hfla. }
  erewrite bind_ok by exact Htargets. cbv beta iota.
  (* the scramble, the identifier and the store *)
  destruct (scramble_ok l3 W3) as (scram & W4 & Hscram & HS4 & _).
  erewrite bind_ok by exact Hscram.
  erewrite bind_ok by reflexivity. cbv zeta.
  erewrite bind_ok by reflexivity.
  eexists _, _, _. split; [reflexivity|]. cbn [SESSIONS found targets letters].
  split; [by rewrite HS4, HS3|]. split; [done|]. split; [done|].
  split; [apply hex_digits_length|]. split; [done|].
  intros Hnil. split; [by apply empty_vocabulary_no_anagrams|by apply Htiger].
Qed.

(** *** Guesses *)

Lemma session_known_str s W :
  session_known (JStr s) W = (Ok (bool_decide (is_Some (SESSIONS W !! s))), W).
Proof. reflexivity. Qed.

Lemma session_lookup_str s gs W :
  SESSIONS W !! s = Some gs → session_lookup (JStr s) W = (Ok (s, gs), W).
Proof.
  intros Hgs. unfold session_lookup. erewrite bind_ok by reflexivity.
  by rewrite Hgs.
Qed.

(** A guess for a stored session: the reply, and the only change a
    guess can make to the store. *)
Lemma guess_known items s gs W :
  assoc "session_id" items = Some (JStr s) → s ≠ "" →
  SESSIONS W !! s = Some gs →
  guess (JObj items) W
  = let g := normalize (default (JStr "") (assoc "guess" items)) in
    if guess_ok gs g && negb (bool_decide (g ∈ found gs))
    then (Ok (guess_reply (guess_ok gs g) (found_append gs g)),
          mkWorld (<[s := found_append gs g]> (SESSIONS W))
                  (rand_pos W) (urandom_pos W) (llm_pos W))
    else (Ok (guess_reply (guess_ok gs g) gs), W).
Proof.
  intros Hsid Hs Hgs. unfold guess, method_get.
  erewrite bind_ok by reflexivity. erewrite bind_ok by reflexivity.
  rewrite Hsid. cbn [from_option id truthy].
  rewrite bool_decide_false by done. cbn [negb].
  erewrite bind_ok; last first.
  { erewrite bind_ok by apply session_known_str. reflexivity. }
  rewrite Hgs, bool_decide_true by eauto. cbn [negb].
  erewrite bind_ok by (by apply session_lookup_str).
  cbv beta iota zeta.
  destruct (guess_ok gs _ && negb (bool_decide (_ ∈ found gs))).
  - erewrite bind_ok; last first.
    { erewrite bind_ok by reflexivity. reflexivity. }
    reflexivity.
  - erewrite bind_ok by reflexivity. reflexivity.
Qed.

(** A guess that names no stored session. *)
Lemma guess_unknown items W :
  match default JNull (assoc "session_id" items) with
  | JStr s => SESSIONS W !! s = None
  | JArr (_ :: _) | JObj (_ :: _) => False
  | _ => True
  end →
  guess (JObj items) W = (Ok invalid_session, W).
Proof.
  intros Hsid. unfold guess, method_get.
  erewrite bind_ok by reflexivity. erewrite bind_ok by reflexivity.
  destruct (default JNull (assoc "session_id" items))
    as [|[]|n|x|s|[|v l]|[|kv items']]; try done.
  - cbn [truthy]. destruct (negb (n =? 0)%Z); [|done].
    erewrite bind_ok by reflexivity. reflexivity.
  - cbn [truthy]. destruct (negb (PrimFloat.eqb x 0)); [|done].
    erewrite bind_ok by reflexivity. reflexivity.
  - cbn [truthy]. destruct (negb (bool_decide (s = ""))); [|done].
    cbn [negb].
    erewrite bind_ok; last first.
    { erewrite bind_ok by apply session_known_str. reflexivity. }
    rewrite Hsid, bool_decide_false by (by intros [? ?]). reflexivity.
Qed.

(** Whatever the body, a guess changes at most the [found] list of one
    stored session, by appending a word that passed the test and was not
    in the list. *)
Lemma guess_sessions data W :
  (guess data W).2 = W
  ∨ ∃ s gs g,
      SESSIONS W !! s = Some gs ∧ guess_ok gs g = true ∧ (g ∉ found gs)
      ∧ SESSIONS (guess data W).2 = <[s := found_append gs g]> (SESSIONS W).
Proof.
  destruct data as [| | | | | |items]; try (by left).
  destruct (default JNull (assoc "session_id" items))
    as [| | | |s|l|items0] eqn:Hsid;
    try (left; rewrite guess_unknown; [done|by rewrite Hsid]).
  - destruct (SESSIONS W !! s) as [gs|] eqn:Hgs;
      [|left; rewrite guess_unknown; [done|by rewrite Hsid]].
    destruct (decide (s = "")) as [->|Hs].
    { left. unfold guess, method_get.
      erewrite bind_ok by reflexivity. erewrite bind_ok by reflexivity.
      by rewrite Hsid. }
    assert (assoc "session_id" items = Some (JStr s)) as Hassoc.
    { destruct (assoc "session_id" items); simpl in Hsid; congruence. }
    rewrite (guess_known items s gs W Hassoc Hs Hgs). cbv zeta.
    destruct (guess_ok gs _ && negb (bool_decide (_ ∈ found gs))) eqn:Hok;
      [|by left].
    right. apply andb_true_iff in Hok as [Hok Hfound].
    eexists s, gs, _. split; [done|]. split; [done|]. split; [|done].
    apply negb_true_iff, bool_decide_eq_false in Hfound. done.
  - left. destruct l as [|v l]; [rewrite guess_unknown; [done|by rewrite Hsid]|].
    unfold guess, method_get.
    erewrite bind_ok by reflexivity. erewrite bind_ok by reflexivity.
    by rewrite Hsid.
  - left. destruct items0 as [|kv items0];
      [rewrite guess_unknown; [done|by rewrite Hsid]|].
    unfold guess, method_get.
    erewrite bind_ok by reflexivity. erewrite bind_ok by reflexivity.
    by rewrite Hsid.
Qed.

(** *** The state operation *)

Lemma state_run arg W :
  state arg W
  = (Ok (match SESSIONS W !! default "" arg with
         | Some gs => state_reply gs
         | None => invalid_session
         end), W).
Proof.
  unfold state. erewrite bind_ok by reflexivity.
  by destruct (SESSIONS W !! default "" arg).
Qed.

(** *** The invariant of the session store *)

Lemma found_append_inv gs g :
  session_inv gs → guess_ok gs g = true → g ∉ found gs →
  session_inv (found_append gs g).
Proof.
  intros [Ht Hnd Hsub] Hok Hg. unfold guess_ok in Hok.
  rewrite !andb_true_iff, !bool_decide_eq_true in Hok.
  destruct Hok as [[_ Hin] _].
  split; cbn [found_append targets letters found].
  - done.
  - apply NoDup_app. split; [done|]. split; [|apply NoDup_singleton].
    intros x Hx ->%list_elem_of_singleton. done.
  - intros x [Hx| ->%list_elem_of_singleton]%elem_of_app; [by apply Hsub|done].
Qed.

Lemma reachable_inv W :
  reachable W →
  ∀ sid gs, SESSIONS W !! sid = Some gs →
            session_inv gs ∧ String.length sid = 32.
Proof.
  induction 1 as [|W r Hreach IH]; intros sid gs.
  - cbn [initial SESSIONS]. by rewrite lookup_empty.
  - destruct r as [|data|arg]; unfold handle.
    + destruct (new_game_spec W)
        as (sid0 & gs0 & W' & Hrun & HS & Hfound & Htargets & Hlen & _).
      rewrite Hrun. cbn [snd]. rewrite HS.
      destruct (decide (sid0 = sid)) as [<-|Hne].
      * rewrite lookup_insert_eq. intros [= <-]. split; [|done].
        split; [done|rewrite Hfound; apply NoDup_nil_2|].
        rewrite Hfound. by intros x ?%not_elem_of_nil.
      * rewrite lookup_insert_ne by done. apply IH.
    + destruct (guess_sessions data W)
        as [->|(s & gs0 & g & Hgs0 & Hok & Hg & ->)]; [apply IH|].
      destruct (decide (s = sid)) as [<-|Hne].
      * rewrite lookup_insert_eq. intros [= <-].
        destruct (IH _ _ Hgs0) as [Hinv Hlen]. split; [|done].
        by apply found_append_inv.
      * rewrite lookup_insert_ne by done. apply IH.
    + rewrite state_run. apply IH.
Qed.

Lemma reachable_sid_nonempty W sid gs :
  reachable W → SESSIONS W !! sid = Some gs → sid ≠ "".
Proof.
  intros Hreach Hgs ->. by destruct (reachable_inv W Hreach _ _ Hgs) as [_ ?].
Qed.

Lemma reachable_target W sid gs w :
  reachable W → SESSIONS W !! sid = Some gs → w ∈ targets gs →
  PyStr.len w = 5 ∧ signature w = letters gs.
Proof.
  intros Hreach Hgs Hw.
  destruct (reachable_inv W Hreach _ _ Hgs) as [[Ht _ _] _].
  rewrite Ht in Hw. by apply anagrams_spec in Hw as (? & ? & _).
Qed.

Lemma guess_ok_target W sid gs w :
  reachable W → SESSIONS W !! sid = Some gs → w ∈ targets gs →
  guess_ok gs w = true.
Proof.
  intros Hreach Hgs Hw.
  destruct (reachable_target W sid gs w Hreach Hgs Hw) as [Hlen Hsig].
  unfold guess_ok. by rewrite !andb_true_iff, !bool_decide_eq_true.
Qed.

Lemma guess_ok_false gs g :
  PyStr.len g ≠ 5 ∨ signature g ≠ letters gs ∨ g ∉ targets gs →
  guess_ok gs g = false.
Proof.
  intros H. unfold guess_ok. apply not_true_is_false.
  rewrite !andb_true_iff, !bool_decide_eq_true. unfold SEED_LEN. naive_solver.
Qed.

(** *** The guess operation on a stored session *)

(** C1: in every session of a reachable store, a guess that normalises
    (lowercase, then trim) to a target [w] not yet in [found] is answered
    with [correct = true] and appends [w] to [found], which grows by
    exactly one; a further guess that normalises to [w] is answered with
    [correct = true] again and leaves the store as it is. *)
Theorem guess_target_then_repeat W sid gs items items' raw raw' w :
  reachable W → SESSIONS W !! sid = Some gs →
  assoc "session_id" items = Some (JStr sid) →
  assoc "guess" items = Some (JStr raw) →
  assoc "session_id" items' = Some (JStr sid) →
  assoc "guess" items' = Some (JStr raw') →
  PyStr.strip (PyStr.lower raw) = w → PyStr.strip (PyStr.lower raw') = w →
  w ∈ targets gs → w ∉ found gs →
  ∃ r1 W1 gs1 r2,
    guess (JObj items) W = (Ok r1, W1)
    ∧ status r1 = 200
    ∧ field "correct" r1 = Some (JBool true)
    ∧ field "found" r1 = Some (json_strings (found gs ++ [w]))
    ∧ SESSIONS W1 !! sid = Some gs1
    ∧ found gs1 = found gs ++ [w]
    ∧ length (found gs1) = length (found gs) + 1
    ∧ guess (JObj items') W1 = (Ok r2, W1)
    ∧ status r2 = 200
    ∧ field "correct" r2 = Some (JBool true)
    ∧ field "found" r2 = Some (json_strings (found gs1)).
Proof.
  intros Hreach Hgs Hsid Hraw Hsid' Hraw' Hw Hw' Hin Hnew.
  pose proof (reachable_sid_nonempty W sid gs Hreach Hgs) as Hne.
  pose proof (guess_ok_target W sid gs w Hreach Hgs Hin) as Hok.
  set (W1 := mkWorld (<[sid := found_append gs w]> (SESSIONS W))
                     (rand_pos W) (urandom_pos W) (llm_pos W)).
  assert (SESSIONS W1 !! sid = Some (found_append gs w)) as Hgs1
    by apply lookup_insert_eq.
  exists (guess_reply true (found_append gs w)), W1, (found_append gs w),
         (guess_reply true (found_append gs w)).
  split.
  { rewrite (guess_known items sid gs W Hsid Hne Hgs), Hraw. cbv zeta.
    change (normalize (default (JStr "") (Some (JStr raw))))
      with (PyStr.strip (PyStr.lower raw)).
    rewrite Hw, Hok, (bool_decide_false _ Hnew). reflexivity. }
  do 3 (split; [done|]). split; [done|]. split; [done|].
  split; [cbn [found_append found]; by rewrite length_app|].
  split; [|done].
  rewrite (guess_known items' sid _ W1 Hsid' Hne Hgs1), Hraw'. cbv zeta.
  change (normalize (default (JStr "") (Some (JStr raw'))))
    with (PyStr.strip (PyStr.lower raw')).
  rewrite Hw'.
  change (guess_ok (found_append gs w) w) with (guess_ok gs w).
  rewrite Hok. rewrite bool_decide_true; [reflexivity|].
  cbn [found_append found]. apply elem_of_app. right. by left.
Qed.

(** C3: in every session of a reachable store, a guess whose normalised
    form has a length other than 5, or is no anagram of the session's
    letters, or is no member of its targets, is answered with
    [correct = false]; nothing in the store changes, so [found] is as it
    was. *)
Theorem guess_rejected W sid gs items raw :
  reachable W → SESSIONS W !! sid = Some gs →
  assoc "session_id" items = Some (JStr sid) →
  assoc "guess" items = Some (JStr raw) →
  PyStr.len (PyStr.strip (PyStr.lower raw)) ≠ 5
  ∨ signature (PyStr.strip (PyStr.lower raw)) ≠ letters gs
  ∨ PyStr.strip (PyStr.lower raw) ∉ targets gs →
  ∃ r,
    guess (JObj items) W = (Ok r, W)
    ∧ status r = 200
    ∧ field "correct" r = Some (JBool false)
    ∧ field "found" r = Some (json_strings (found gs)).
Proof.
  intros Hreach Hgs Hsid Hraw Hbad.
  pose proof (reachable_sid_nonempty W sid gs Hreach Hgs) as Hne.
  exists (guess_reply false gs). split; [|done].
  rewrite (guess_known items sid gs W Hsid Hne Hgs), Hraw. cbv zeta.
  change (normalize (default (JStr "") (Some (JStr raw))))
    with (PyStr.strip (PyStr.lower raw)).
  by rewrite (guess_ok_false gs _ Hbad).
Qed.

Lemma covered_length gs :
  session_inv gs → (∀ t, t ∈ targets gs → t ∈ found gs) →
  length (found gs) = length (targets gs).
Proof.
  intros [Ht Hnd Hsub] Hall. apply Permutation_length, NoDup_Permutation.
  - done.
  - rewrite Ht. apply anagrams_NoDup.
  - intros x. split; [apply Hsub|apply Hall].
Qed.

(** C4: the reply to a guess for a stored session reports
    [remaining = |targets| - |found|] and
    [complete = (|found| == |targets|)], for [found] as the guess leaves
    it; once every target is in [found], whatever the order of
    discovery, [complete] is true and [remaining] is 0. *)
Theorem guess_reply_counts W sid gs items :
  reachable W → SESSIONS W !! sid = Some gs →
  assoc "session_id" items = Some (JStr sid) →
  ∃ r W' gs',
    guess (JObj items) W = (Ok r, W')
    ∧ SESSIONS W' !! sid = Some gs'
    ∧ targets gs' = targets gs
    ∧ field "found" r = Some (json_strings (found gs'))
    ∧ field "remaining" r
      = Some (JInt (Z.of_nat (length (targets gs)) - Z.of_nat (length (found gs'))))
    ∧ field "complete" r
      = Some (JBool (bool_decide (length (found gs') = length (targets gs))))
    ∧ ((∀ t, t ∈ targets gs → t ∈ found gs') →
       field "complete" r = Some (JBool true)
       ∧ field "remaining" r = Some (JInt 0)).
Proof.
  intros Hreach Hgs Hsid.
  pose proof (reachable_sid_nonempty W sid gs Hreach Hgs) as Hne.
  destruct (reachable_inv W Hreach _ _ Hgs) as [Hinv _].
  rewrite (guess_known items sid gs W Hsid Hne Hgs). cbv zeta.
  set (g := normalize (default (JStr "") (assoc "guess" items))).
  assert (∀ gs', session_inv gs' → targets gs' = targets gs →
            (∀ t, t ∈ targets gs → t ∈ found gs') →
            field "complete" (guess_reply (guess_ok gs g) gs') = Some (JBool true)
            ∧ field "remaining" (guess_reply (guess_ok gs g) gs') = Some (JInt 0))
    as Hcovered.
  { intros gs' Hinv' Ht Hall. rewrite <-Ht in Hall.
    pose proof (covered_length gs' Hinv' Hall) as Hlen.
    unfold field, guess_reply. cbn [fst assoc].
    rewrite !decide_False, !decide_True by done.
    rewrite Hlen, bool_decide_true by done. split; [done|].
    do 2 f_equal. lia. }
  destruct (guess_ok gs g && negb (bool_decide (g ∈ found gs))) eqn:Hbranch.
  - apply andb_true_iff in Hbranch as [Hok Hnew].
    apply negb_true_iff, bool_decide_eq_false in Hnew.
    eexists _, _, (found_append gs g). split; [reflexivity|].
    split; [apply lookup_insert_eq|]. do 4 (split; [done|]).
    apply Hcovered; [by apply found_append_inv|done].
  - eexists _, _, gs. split; [reflexivity|]. do 5 (split; [done|]).
    by apply Hcovered.
Qed.

(** C10: for a body that carries the identifier of a stored session, the
    handler returns a reply with status 200 whatever the [guess] member
    is: absent, null, a number, or any other JSON value.  The value is
    turned into a string with [str], lowercased and trimmed; when the
    result is no target of the session the reply has [correct = false]
    and nothing in the store changes. *)
Theorem guess_total_in_guess_field W sid gs items :
  reachable W → SESSIONS W !! sid = Some gs →
  assoc "session_id" items = Some (JStr sid) →
  ∃ r W',
    guess (JObj items) W = (Ok r, W')
    ∧ status r = 200
    ∧ field "correct" r
      = Some (JBool (guess_ok gs (normalize (default (JStr "") (assoc "guess" items)))))
    ∧ (normalize (default (JStr "") (assoc "guess" items)) ∉ targets gs →
       field "correct" r = Some (JBool false)
       ∧ field "found" r = Some (json_strings (found gs))
       ∧ W' = W).
Proof.
  intros Hreach Hgs Hsid.
  pose proof (reachable_sid_nonempty W sid gs Hreach Hgs) as Hne.
  rewrite (guess_known items sid gs W Hsid Hne Hgs). cbv zeta.
  set (g := normalize (default (JStr "") (assoc "guess" items))).
  destruct (guess_ok gs g && negb (bool_decide (g ∈ found gs))) eqn:Hbranch.
  - eexists _, _. split; [reflexivity|]. do 2 (split; [done|]).
    intros Hout. apply andb_true_iff in Hbranch as [Hok _].
    rewrite guess_ok_false in Hok by auto. done.
  - eexists _, _. split; [reflexivity|]. do 2 (split; [done|]).
    intros Hout. by rewrite guess_ok_false by auto.
Qed.

(** *** Unknown identifiers *)

(** Where the rejection of an identifier that names no stored session
    works: both operations answer with status 400 and the body
    [{"error": "invalid session"}], and leave the process state as it is,
    when for [guess] the identifier is absent from the body, null, a
    string that is no key of the store, or any other hashable value, and
    for [state] the query parameter is absent or a string that is no key
    of the store. *)
Theorem unknown_session_is_rejected W items arg :
  reachable W →
  match default JNull (assoc "session_id" items) with
  | JStr s => SESSIONS W !! s = None
  | JArr (_ :: _) | JObj (_ :: _) => False
  | _ => True
  end →
  match arg with
  | Some s => SESSIONS W !! s = None
  | None => True
  end →
  guess (JObj items) W = (Ok (JObj [("error", JStr "invalid session")], 400), W)
  ∧ state arg W = (Ok (JObj [("error", JStr "invalid session")], 400), W).
Proof.
  intros Hreach Hguess Hstate. split.
  - by apply guess_unknown.
  - rewrite state_run.
    assert (SESSIONS W !! default "" arg = None) as ->; [|done].
    destruct arg as [s|]; [done|]. cbn [from_option].
    destruct (SESSIONS W !! "") as [gs|] eqn:Hgs; [|done].
    by destruct (reachable_sid_nonempty W "" gs Hreach Hgs).
Qed.

(** *** Session creation *)

Lemma new_game_answer_count_pos W :
  FIVE_WORDS ≠ [] →
  ∃ sid gs W',
    new_game W = (Ok (new_game_reply sid gs), W')
    ∧ SESSIONS W' !! sid = Some gs
    ∧ ∃ n, field "answer_count" (new_game_reply sid gs) = Some (JInt n) ∧ (1 ≤ n)%Z.
Proof.
  intros Hfive.
  destruct (new_game_spec W) as (sid & gs & W' & Hrun & HS & _ & _ & _ & Hne & _).
  exists sid, gs, W'. split; [done|].
  split; [rewrite HS; apply lookup_insert_eq|].
  eexists. split; [reflexivity|].
  specialize (Hne Hfive). destruct (targets gs); [done|]. simpl. lia.
Qed.

(** C6: with an empty set of 5-letter words, whether the collaborator
    is disabled or not, [new_game] does not fail: it uses the hardcoded
    word "tiger", stores a session without targets and reports
    [answer_count = 0]. *)
Theorem new_game_empty_vocabulary_answer_count_0 W :
  FIVE_WORDS = [] →
  ∃ sid gs W',
    new_game W = (Ok (new_game_reply sid gs), W')
    ∧ SESSIONS W' !! sid = Some gs
    ∧ letters gs = "egirt"
    ∧ targets gs = []
    ∧ field "answer_count" (new_game_reply sid gs) = Some (JInt 0).
Proof.
  intros Hnil.
  destruct (new_game_spec W) as (sid & gs & W' & Hrun & HS & _ & _ & _ & _ & Hempty).
  destruct (Hempty Hnil) as [Htargets Hletters].
  exists sid, gs, W'. split; [done|].
  split; [rewrite HS; apply lookup_insert_eq|].
  split; [by rewrite Hletters|]. split; [done|].
  unfold field, new_game_reply. cbn [fst assoc].
  rewrite !decide_False, !decide_True by done. by rewrite Htargets.
Qed.

(** *** The found list *)

(** C8: in every session of a reachable store, [found] has no
    duplicates and all its words are targets.  A new game stores a
    session whose [found] is empty.  A guess, whatever its body, keeps
    every stored session, with the same targets, and leaves its [found]
    as it was or appends one target that was not in it, so the order of
    discovery is kept and [found] only grows.  The state operation
    changes nothing. *)
Theorem found_is_a_growing_duplicate_free_subset W :
  reachable W →
  (∀ sid gs, SESSIONS W !! sid = Some gs →
             NoDup (found gs) ∧ found gs ⊆ targets gs)
  ∧ (∃ sid gs W',
        new_game W = (Ok (new_game_reply sid gs), W')
        ∧ SESSIONS W' !! sid = Some gs ∧ found gs = [])
  ∧ (∀ data sid gs,
        SESSIONS W !! sid = Some gs →
        ∃ gs', SESSIONS (guess data W).2 !! sid = Some gs'
               ∧ targets gs' = targets gs
               ∧ (found gs' = found gs
                  ∨ ∃ w, w ∈ targets gs ∧ (w ∉ found gs)
                         ∧ found gs' = found gs ++ [w]))
  ∧ (∀ arg, (state arg W).2 = W).
Proof.
  intros Hreach. split; [|split; [|split]].
  - intros sid gs Hgs. by destruct (reachable_inv W Hreach _ _ Hgs) as [[_ ? ?] _].
  - destruct (new_game_spec W) as (sid & gs & W' & Hrun & HS & Hfound & _).
    exists sid, gs, W'. split; [done|]. split; [|done].
    rewrite HS. apply lookup_insert_eq.
  - intros data sid gs Hgs.
    destruct (guess_sessions data W)
      as [->|(s & gs0 & g & Hgs0 & Hok & Hg & ->)]; [exists gs; auto|].
    destruct (decide (s = sid)) as [->|Hne].
    + rewrite lookup_insert_eq. exists (found_append gs0 g).
      assert (gs0 = gs) as -> by congruence.
      split; [done|]. split; [done|]. right. exists g.
      split; [|done]. unfold guess_ok in Hok.
      rewrite !andb_true_iff, !bool_decide_eq_true in Hok. tauto.
    + rewrite lookup_insert_ne by done. exists gs. auto.
  - intros arg. by rewrite state_run.
Qed.

(** *** Reading the state *)

(** C9: the state operation changes nothing in the process state, and a
    second call right after the first returns what the first returned:
    for a stored session its topic, scrambled letters, letters, found
    list and number of targets, otherwise the invalid-session reply. *)
Theorem state_is_read_only_and_idempotent W arg :
  (state arg W).2 = W
  ∧ state arg (state arg W).2 = state arg W
  ∧ (state arg W).1
    = Ok (match SESSIONS W !! default "" arg with
          | Some gs =>
              (JObj [("topic", JStr (topic gs));
                     ("scrambled", JStr (scrambled gs));
                     ("letters", JStr (letters gs));
                     ("found", JArr (JStr <$> found gs));
                     ("total", JInt (Z.of_nat (length (targets gs))))], 200)
          | None => (JObj [("error", JStr "invalid session")], 400)
          end).
Proof.
  repeat (rewrite state_run; cbn [fst snd]). done.
Qed.

(** *** More on randomness and the picker *)

Lemma choice_spec {A} (seq : list A) W :
  seq ≠ [] →
  ∃ a, choice seq W
       = (Ok a, mkWorld (SESSIONS W) (S (rand_pos W)) (urandom_pos W) (llm_pos W))
       ∧ a ∈ seq.
Proof.
  intros Hne. destruct seq as [|x seq]; [done|]. unfold choice.
  set (l := x :: seq).
  assert (rand (rand_pos W) `mod` length l < length l) as Hlt
    by (apply Nat.mod_upper_bound; simpl; lia).
  destruct (lookup_lt_is_Some_2 l _ Hlt) as [a Ha].
  exists a. split; [|by eapply list_elem_of_lookup_2].
  erewrite bind_ok by reflexivity. by rewrite Ha.
Qed.

Lemma swap_spec {A} (x : list A) i j W :
  i < length x → j < length x →
  ∃ x', swap x i j W = (Ok x', W) ∧ x' ≡ₚ x.
Proof.
  intros Hi Hj. unfold swap.
  destruct (lookup_lt_is_Some_2 x _ Hi) as [xi Hxi].
  destruct (lookup_lt_is_Some_2 x _ Hj) as [xj Hxj].
  rewrite Hxi, Hxj. eexists. split; [reflexivity|].
  by apply Permutation_insert_swap.
Qed.

Lemma shuffle_from_spec {A} i (x : list A) W :
  i < length x →
  ∃ x' W', shuffle_from i x W = (Ok x', W') ∧ x' ≡ₚ x
           ∧ SESSIONS W' = SESSIONS W ∧ rand_pos W' = rand_pos W + i
           ∧ urandom_pos W' = urandom_pos W ∧ llm_pos W' = llm_pos W.
Proof.
  revert x W. induction i as [|i IH]; intros x W Hi.
  - exists x, W. split; [done|]. split; [done|]. split; [done|].
    split; [lia|done].
  - rewrite shuffle_from_S. erewrite bind_ok by reflexivity.
    set (W1 := mkWorld (SESSIONS W) (S (rand_pos W)) (urandom_pos W) (llm_pos W)).
    assert (rand (rand_pos W) `mod` S (S i) < length x) as Hj.
    { pose proof (Nat.mod_upper_bound (rand (rand_pos W)) (S (S i))). lia. }
    destruct (swap_spec x (S i) _ W1 Hi Hj) as (x1 & Hswap & Hperm).
    erewrite bind_ok by exact Hswap.
    destruct (IH x1 W1) as (x2 & W2 & Hrun & Hperm2 & HS & HR & HU & HL).
    { apply Permutation_length in Hperm. lia. }
    exists x2, W2. split; [done|]. split; [by rewrite Hperm2|].
    split; [done|]. split; [|done]. rewrite HR. simpl. lia.
Qed.

Lemma scramble_spec letters_sorted W :
  ∃ s W', scramble letters_sorted W = (Ok s, W')
          ∧ list_ascii_of_string s ≡ₚ list_ascii_of_string letters_sorted
          ∧ SESSIONS W' = SESSIONS W
          ∧ rand_pos W' = rand_pos W + (PyStr.len letters_sorted - 1)
          ∧ urandom_pos W' = urandom_pos W ∧ llm_pos W' = llm_pos W.
Proof.
  unfold scramble, shuffle. rewrite <-PyStrFacts.length_list_ascii.
  destruct (list_ascii_of_string letters_sorted) as [|c cs] eqn:Hcs.
  - exists "", W. erewrite bind_ok by reflexivity.
    split; [done|]. split; [done|]. split; [done|]. split; [simpl; lia|done].
  - destruct (shuffle_from_spec (length (c :: cs) - 1) (c :: cs) W)
      as (x' & W' & Hrun & Hperm & HS & HR & HU & HL); [simpl; lia|].
    exists (PyStr.join_chars x'), W'. erewrite bind_ok by exact Hrun.
    split; [done|]. split; [|done].
    unfold PyStr.join_chars. by rewrite list_ascii_of_string_of_list_ascii.
Qed.

(** X5: [scramble] always returns; its result is a rearrangement of the
    letters it is given, so it has their signature and their number; it
    draws one random number for each letter but the first and touches
    nothing else. *)
Theorem scramble_is_a_rearrangement letters_sorted W :
  ∃ s W',
    scramble letters_sorted W = (Ok s, W')
    ∧ list_ascii_of_string s ≡ₚ list_ascii_of_string letters_sorted
    ∧ signature s = signature letters_sorted
    ∧ PyStr.len s = PyStr.len letters_sorted
    ∧ SESSIONS W' = SESSIONS W
    ∧ rand_pos W' = rand_pos W + (PyStr.len letters_sorted - 1)
    ∧ urandom_pos W' = urandom_pos W
    ∧ llm_pos W' = llm_pos W.
Proof.
  destruct (scramble_spec letters_sorted W)
    as (s & W' & Hrun & Hperm & HS & HR & HU & HL).
  exists s, W'. split; [done|]. split; [done|].
  split; [by apply signature_of_Permutation|].
  split; [|done].
  rewrite <-!PyStrFacts.length_list_ascii. by apply Permutation_length.
Qed.

Lemma fallback_spec W :
  ∃ topic word W',
    _fallback_topic_word W = (Ok (topic, word), W')
    ∧ topic ∈ ["animals"; "music"; "space"; "sports"; "food"]
    ∧ match FIVE_WORDS with
      | [] => word = "tiger" ∧ rand_pos W' = rand_pos W + 1
      | _ :: _ => word ∈ FIVE_WORDS ∧ rand_pos W' = rand_pos W + 2
      end
    ∧ SESSIONS W' = SESSIONS W
    ∧ urandom_pos W' = urandom_pos W
    ∧ llm_pos W' = llm_pos W.
Proof.
  unfold _fallback_topic_word.
  destruct (choice_spec ["animals"; "music"; "space"; "sports"; "food"] W)
    as (t & Ht & Hin); [done|].
  erewrite bind_ok by exact Ht.
  destruct FIVE_WORDS as [|w0 ws] eqn:Hfive.
  - eexists t, "tiger", _. split; [reflexivity|]. split; [done|].
    cbn [rand_pos SESSIONS urandom_pos llm_pos]. split; [split; [done|lia]|done].
  - destruct (choice_spec (w0 :: ws)
                (mkWorld (SESSIONS W) (S (rand_pos W)) (urandom_pos W) (llm_pos W)))
      as (w & Hw & Hwin); [done|].
    erewrite bind_ok by exact Hw.
    eexists t, w, _. split; [reflexivity|]. split; [done|].
    cbn [rand_pos SESSIONS urandom_pos llm_pos]. split; [split; [done|lia]|done].
Qed.

(** X6: the local fallback always returns: a topic out of the five fixed
    categories, and a word of the vocabulary after two random draws, or
    the word "tiger" after one draw when the vocabulary is empty.  It
    makes no request to the collaborator and leaves the sessions alone. *)
Theorem fallback_picks_from_the_vocabulary W :
  ∃ topic word W',
    _fallback_topic_word W = (Ok (topic, word), W')
    ∧ topic ∈ ["animals"; "music"; "space"; "sports"; "food"]
    ∧ (FIVE_WORDS ≠ [] → word ∈ FIVE_WORDS ∧ rand_pos W' = rand_pos W + 2)
    ∧ (FIVE_WORDS = [] → word = "tiger" ∧ rand_pos W' = rand_pos W + 1)
    ∧ SESSIONS W' = SESSIONS W
    ∧ urandom_pos W' = urandom_pos W
    ∧ llm_pos W' = llm_pos W.
Proof.
  destruct (fallback_spec W) as (t & w & W' & Hrun & Ht & Hw & Hrest).
  exists t, w, W'. split; [done|]. split; [done|].
  destruct FIVE_WORDS as [|w0 ws]; (split; [|split]); done.
Qed.

Lemma attempt_outcome W :
  ∃ a, attempt W
       = (Ok a, mkWorld (SESSIONS W) (rand_pos W) (urandom_pos W) (S (llm_pos W)))
       ∧ match a with
         | Some (topic, word) =>
             reply_outcome (llm (llm_pos W))
             = if valid_word word then Some (topic, word) else None
         | None => reply_outcome (llm (llm_pos W)) = None
         end.
Proof.
  unfold attempt, reply_outcome. erewrite bind_ok by reflexivity.
  destruct (llm (llm_pos W)) as [|content]; [by exists None|].
  destruct (extract (PyStr.strip content)) as [[t w]|]; [|by exists None].
  by eexists (Some (_, _)).
Qed.

Lemma attempts_S n W :
  attempts (S n) W
  = match reply_outcome (llm (llm_pos W)) with
    | Some p =>
        (Ok p, mkWorld (SESSIONS W) (rand_pos W) (urandom_pos W) (S (llm_pos W)))
    | None =>
        attempts n (mkWorld (SESSIONS W) (rand_pos W) (urandom_pos W) (S (llm_pos W)))
    end.
Proof.
  change (attempts (S n)) with
    (a ← attempt;
     match a with
     | Some (topic, word) =>
         if valid_word word then mret (topic, word) else attempts n
     | None => attempts n
     end).
  destruct (attempt_outcome W) as (a & Ha & Hout).
  erewrite bind_ok by exact Ha.
  destruct a as [[t w]|]; rewrite Hout; [|done].
  by destruct (valid_word w).
Qed.

Lemma attempts_rejected k n W :
  (∀ j, j < k → reply_outcome (llm (llm_pos W + j)) = None) →
  attempts (k + n) W
  = attempts n (mkWorld (SESSIONS W) (rand_pos W) (urandom_pos W) (llm_pos W + k)).
Proof.
  revert W. induction k as [|k IH]; intros W Hrej.
  - destruct W as [S r u l]. cbn [SESSIONS rand_pos urandom_pos llm_pos].
    by rewrite Nat.add_0_r.
  - cbn [Nat.add]. rewrite attempts_S.
    pose proof (Hrej 0 ltac:(lia)) as H0. rewrite Nat.add_0_r in H0. rewrite H0.
    rewrite IH; cbn [SESSIONS rand_pos urandom_pos llm_pos].
    + do 2 f_equal. lia.
    + intros j Hj. rewrite <-(Hrej (S j)) by lia. do 2 f_equal. lia.
Qed.

(** X7: with the collaborator enabled and a vocabulary that is not empty,
    the picker returns the first reply that parses and passes validation,
    provided it is among the first three: after [k] rejected replies and
    one accepted reply it has made exactly [k + 1] requests, drawn no
    random number and returned the topic and word of that reply. *)
Theorem picker_returns_the_first_accepted_reply W k p :
  DISABLE_LLM = false → FIVE_WORDS ≠ [] → k < 3 →
  (∀ j, j < k → reply_outcome (llm (llm_pos W + j)) = None) →
  reply_outcome (llm (llm_pos W + k)) = Some p →
  ask_tinyllama_topic_and_word W
  = (Ok p, mkWorld (SESSIONS W) (rand_pos W) (urandom_pos W) (llm_pos W + S k)).
Proof.
  intros -> Hfive Hk Hrej Hacc. unfold ask_tinyllama_topic_and_word.
  rewrite bool_decide_false by done. cbn [orb].
  replace 3 with (k + S (2 - k)) by lia.
  rewrite (attempts_rejected k _ W Hrej), attempts_S.
  cbn [SESSIONS rand_pos urandom_pos llm_pos]. rewrite Hacc.
  do 2 f_equal. lia.
Qed.

(** X8: with the collaborator enabled and a vocabulary that is not empty,
    three rejected replies in a row make the picker return what the local
    fallback picks, after exactly three requests. *)
Theorem picker_falls_back_after_three_rejections W :
  DISABLE_LLM = false → FIVE_WORDS ≠ [] →
  (∀ j, j < 3 → reply_outcome (llm (llm_pos W + j)) = None) →
  ask_tinyllama_topic_and_word W
  = _fallback_topic_word
      (mkWorld (SESSIONS W) (rand_pos W) (urandom_pos W) (llm_pos W + 3)).
Proof.
  intros -> Hfive Hrej. unfold ask_tinyllama_topic_and_word.
  rewrite bool_decide_false by done. cbn [orb].
  exact (attempts_rejected 3 0 W Hrej).
Qed.

(** X9: unless the vocabulary is empty, the word that the picker returns
    passes the validation of the loop, whichever path produced it: it is
    alphabetic, 5 characters long and meets the frequency threshold. *)
Theorem picked_word_meets_the_threshold W :
  FIVE_WORDS ≠ [] →
  ∃ topic word W',
    ask_tinyllama_topic_and_word W = (Ok (topic, word), W')
    ∧ valid_word word = true
    ∧ float_ge (zipf_frequency word) MIN_ZIPF = true.
Proof.
  intros Hfive.
  destruct (ask_ok W) as (t & w & W' & Hrun & _ & _ & Hw).
  exists t, w, W'. split; [done|].
  assert (Is_true (valid_word w)) as Hv.
  { destruct Hw as [[Hv _]|[Hin|[Hnil _]]]; [done| |done].
    by destruct (FIVE_WORDS_valid _ Hin) as (_ & _ & _ & ?). }
  split; [by apply Is_true_true|].
  unfold valid_word in Hv. rewrite !andb_True in Hv.
  apply Is_true_true. tauto.
Qed.

(** *** More on session creation *)

Lemma new_game_shape W :
  ∃ sid gs W' word,
    new_game W = (Ok (new_game_reply sid gs), W')
    ∧ SESSIONS W' = <[sid := gs]> (SESSIONS W)
    ∧ String.length sid = 32
    ∧ found gs = []
    ∧ PyStr.len word = 5
    ∧ letters gs = signature word
    ∧ list_ascii_of_string (scrambled gs) ≡ₚ list_ascii_of_string (letters gs)
    ∧ targets gs = five_letter_anagrams (letters gs).
Proof.
  unfold new_game.
  destruct (ask_ok W) as (t1 & w1 & W1 & Hask & HS1 & _ & _).
  erewrite bind_ok by (apply try_except_ok; exact Hask). cbv beta iota.
  assert (∃ t2 w2 W2,
             (if bool_decide (PyStr.len w1 ≠ SEED_LEN)
              then _fallback_topic_word else mret (t1, w1)) W1
             = (Ok (t2, w2), W2) ∧ SESSIONS W2 = SESSIONS W ∧ PyStr.len w2 = 5)
    as (t2 & w2 & W2 & Hlen & HS2 & Hlen2).
  { destruct (bool_decide (PyStr.len w1 ≠ SEED_LEN)) eqn:Hcheck.
    - destruct (fallback_ok W1) as (t & w & W2 & Hrun & HS & _ & _).
      exists t, w, W2. split; [done|]. split; [congruence|].
      by destruct (fallback_word_good _ _ _ _ Hrun) as (_ & ? & _).
    - exists t1, w1, W1. split; [done|]. split; [done|].
      apply bool_decide_eq_false in Hcheck.
      by destruct (decide (PyStr.len w1 = SEED_LEN)). }
  erewrite bind_ok by exact Hlen. cbv beta iota zeta.
  fold (signature w2).
  assert (∃ t3 w3 W3,
             match five_letter_anagrams (signature w2) with
             | [] =>
                 '(topic, word) ← _fallback_topic_word;
                 mret (topic, PyStr.join_chars (PyStr.sorted_chars word),
                       five_letter_anagrams
                         (PyStr.join_chars (PyStr.sorted_chars word)))
             | _ :: _ =>
                 mret (t2, signature w2, five_letter_anagrams (signature w2))
             end W2
             = (Ok (t3, signature w3, five_letter_anagrams (signature w3)), W3)
             ∧ SESSIONS W3 = SESSIONS W ∧ PyStr.len w3 = 5)
    as (t3 & w3 & W3 & Htargets & HS3 & Hlen3).
  { destruct (five_letter_anagrams (signature w2)) as [|x xs] eqn:Hfla.
    - destruct (fallback_ok W2) as (t & w & W3 & Hrun & HS & _ & _).
      erewrite bind_ok by exact Hrun. cbv beta iota. fold (signature w).
      exists t, w, W3. split; [done|]. split; [congruence|].
      by destruct (fallback_word_good _ _ _ _ Hrun) as (_ & ? & _).
    - exists t2, w2, W2. by rewrite Hfla. }
  erewrite bind_ok by exact Htargets. cbv beta iota.
  destruct (scramble_spec (signature w3) W3)
    as (scram & W4 & Hscram & Hperm & HS4 & _).
  erewrite bind_ok by exact Hscram.
  erewrite bind_ok by reflexivity. cbv zeta.
  erewrite bind_ok by reflexivity.
  eexists _, _, _, w3. split; [reflexivity|].
  cbn [SESSIONS found targets letters scrambled].
  split; [by rewrite HS4, HS3|]. split; [apply hex_digits_length|].
  done.
Qed.

(** X10: [new_game] always answers with status 200 and stores exactly the
    session it reports, under the identifier it reports, leaving every
    other session as it was.  The identifier has 32 characters; the stored
    letters are 5 sorted characters; the scrambled string is a
    rearrangement of them; the targets are the bucket of the letters;
    nothing is found yet. *)
Theorem new_game_stores_what_it_reports W :
  ∃ sid gs W',
    new_game W = (Ok (new_game_reply sid gs), W')
    ∧ status (new_game_reply sid gs) = 200
    ∧ SESSIONS W' !! sid = Some gs
    ∧ (∀ sid', sid' ≠ sid → SESSIONS W' !! sid' = SESSIONS W !! sid')
    ∧ String.length sid = 32
    ∧ PyStr.len (letters gs) = 5
    ∧ signature (letters gs) = letters gs
    ∧ list_ascii_of_string (scrambled gs) ≡ₚ list_ascii_of_string (letters gs)
    ∧ signature (scrambled gs) = letters gs
    ∧ targets gs = five_letter_anagrams (letters gs)
    ∧ found gs = [].
Proof.
  destruct (new_game_shape W)
    as (sid & gs & W' & word & Hrun & HS & Hsid & Hfound & Hlen & Hletters
        & Hperm & Htargets).
  exists sid, gs, W'. split; [done|]. split; [done|].
  split; [rewrite HS; apply lookup_insert_eq|].
  split; [intros sid' Hne; rewrite HS; by apply lookup_insert_ne|].
  split; [done|].
  split; [by rewrite Hletters, signature_length|].
  split; [rewrite Hletters; apply signature_idem|].
  split; [done|].
  split; [|done].
  rewrite (signature_of_Permutation _ _ Hperm), Hletters. apply signature_idem.
Qed.

(** X11: right after a new game, the state operation on the reported
    identifier returns the topic, scrambled string and letters that the
    new game reported, an empty found list, and a total equal to the
    reported answer count. *)
Theorem state_after_new_game W :
  ∃ sid gs W',
    new_game W = (Ok (new_game_reply sid gs), W')
    ∧ state (Some sid) W' = (Ok (state_reply gs), W')
    ∧ field "topic" (state_reply gs) = field "topic" (new_game_reply sid gs)
    ∧ field "scrambled" (state_reply gs) = field "scrambled" (new_game_reply sid gs)
    ∧ field "letters" (state_reply gs) = field "letters" (new_game_reply sid gs)
    ∧ field "total" (state_reply gs) = field "answer_count" (new_game_reply sid gs)
    ∧ field "found" (state_reply gs) = Some (JArr []).
Proof.
  destruct (new_game_shape W)
    as (sid & gs & W' & word & Hrun & HS & _ & Hfound & _).
  exists sid, gs, W'. split; [done|]. split.
  - rewrite state_run. cbn [from_option]. rewrite HS, lookup_insert_eq. done.
  - do 4 (split; [done|]). unfold field, state_reply. cbn [fst assoc].
    rewrite !decide_False, !decide_True by done. by rewrite Hfound.
Qed.

(** X12: unless the vocabulary is empty, the session that a new game
    stores has at least one target, and the reported answer count is at
    least 1. *)
Theorem new_game_has_an_answer W :
  FIVE_WORDS ≠ [] →
  ∃ sid gs W' n,
    new_game W = (Ok (new_game_reply sid gs), W')
    ∧ SESSIONS W' !! sid = Some gs
    ∧ targets gs ≠ []
    ∧ field "answer_count" (new_game_reply sid gs) = Some (JInt n)
    ∧ (1 ≤ n)%Z.
Proof.
  intros Hfive.
  destruct (new_game_spec W) as (sid & gs & W' & Hrun & HS & _ & _ & _ & Hne & _).
  exists sid, gs, W', (Z.of_nat (length (targets gs))). split; [done|].
  split; [rewrite HS; apply lookup_insert_eq|].
  specialize (Hne Hfive). split; [done|]. split; [done|].
  destruct (targets gs); [done|]. simpl. lia.
Qed.

(** *** More on the store *)

Lemma reachable_shape W :
  reachable W →
  ∀ sid gs, SESSIONS W !! sid = Some gs →
            PyStr.len (letters gs) = 5
            ∧ signature (letters gs) = letters gs
            ∧ signature (scrambled gs) = letters gs.
Proof.
  induction 1 as [|W r Hreach IH]; intros sid gs.
  - cbn [initial SESSIONS]. by rewrite lookup_empty.
  - destruct r as [|data|arg]; unfold handle.
    + destruct (new_game_shape W)
        as (sid0 & gs0 & W' & word & Hrun & HS & _ & _ & Hlen & Hletters & Hperm & _).
      rewrite Hrun. cbn [snd]. rewrite HS.
      destruct (decide (sid0 = sid)) as [<-|Hne].
      * rewrite lookup_insert_eq. intros [= <-].
        split; [by rewrite Hletters, signature_length|].
        split; [rewrite Hletters; apply signature_idem|].
        rewrite (signature_of_Permutation _ _ Hperm), Hletters.
        apply signature_idem.
      * rewrite lookup_insert_ne by done. apply IH.
    + destruct (guess_sessions data W)
        as [->|(s & gs0 & g & Hgs0 & _ & _ & ->)]; [apply IH|].
      destruct (decide (s = sid)) as [<-|Hne].
      * rewrite lookup_insert_eq. intros [= <-]. by apply (IH s gs0).
      * rewrite lookup_insert_ne by done. apply IH.
    + rewrite state_run. apply IH.
Qed.

Lemma anagrams_sorted k : StronglySorted String.le (five_letter_anagrams k).
Proof.
  unfold five_letter_anagrams.
  destruct (ANAGRAM5_INDEX !! k) as [l|] eqn:Hl; simpl; [|constructor].
  apply index_bucket_sorted_set in Hl as [l0 ->]. apply sorted_set_sorted.
Qed.

Lemma found_length_le gs :
  session_inv gs → length (found gs) ≤ length (targets gs).
Proof.
  intros [_ Hnd Hsub]. by apply submseteq_length, NoDup_submseteq.
Qed.

(** X13: every session of a reachable store is well formed: its key has
    32 characters; its letters are 5 sorted characters; its scrambled
    string is a rearrangement of the letters; its targets are exactly the
    vocabulary words whose signature is the letters, without duplicates
    and in ascending order; and it has found no more words than it has
    targets. *)
Theorem stored_sessions_are_well_formed W sid gs :
  reachable W → SESSIONS W !! sid = Some gs →
  String.length sid = 32
  ∧ PyStr.len (letters gs) = 5
  ∧ signature (letters gs) = letters gs
  ∧ signature (scrambled gs) = letters gs
  ∧ PyStr.len (scrambled gs) = 5
  ∧ (∀ w, w ∈ targets gs ↔ w ∈ FIVE_WORDS ∧ signature w = letters gs)
  ∧ NoDup (targets gs)
  ∧ StronglySorted String.le (targets gs)
  ∧ length (found gs) ≤ length (targets gs).
Proof.
  intros Hreach Hgs.
  destruct (reachable_inv W Hreach _ _ Hgs) as [Hinv Hsid].
  destruct (reachable_shape W Hreach _ _ Hgs) as (Hlen & Hsorted & Hscram).
  pose proof (inv_targets _ _ _ _ _ Hinv) as Ht.
  split; [done|]. split; [done|]. split; [done|]. split; [done|].
  split; [by rewrite <-(signature_length (scrambled gs)), Hscram|].
  split; [|split; [|split]].
  - intros w. rewrite Ht. unfold five_letter_anagrams.
    apply (index_lookup_default top_n_list zipf_frequency LIMIT_VOCAB MIN_ZIPF).
  - rewrite Ht. apply anagrams_NoDup.
  - rewrite Ht. apply anagrams_sorted.
  - by apply found_length_le.
Qed.

(** X14: the count of remaining words in the reply to a guess for a
    stored session is never negative and never more than the number of
    targets, and the reply says [complete] exactly when that count is 0. *)
Theorem remaining_is_within_bounds W sid gs items :
  reachable W → SESSIONS W !! sid = Some gs →
  assoc "session_id" items = Some (JStr sid) →
  ∃ r W' n b,
    guess (JObj items) W = (Ok r, W')
    ∧ field "remaining" r = Some (JInt n)
    ∧ field "complete" r = Some (JBool b)
    ∧ (0 ≤ n ≤ Z.of_nat (length (targets gs)))%Z
    ∧ (b = true ↔ n = 0%Z).
Proof.
  intros Hreach Hgs Hsid.
  pose proof (reachable_sid_nonempty W sid gs Hreach Hgs) as Hne.
  destruct (reachable_inv W Hreach _ _ Hgs) as [Hinv _].
  rewrite (guess_known items sid gs W Hsid Hne Hgs). cbv zeta.
  set (g := normalize (default (JStr "") (assoc "guess" items))).
  assert (∀ ok gs', session_inv gs' → targets gs' = targets gs →
            ∃ n b,
              field "remaining" (guess_reply ok gs') = Some (JInt n)
              ∧ field "complete" (guess_reply ok gs') = Some (JBool b)
              ∧ (0 ≤ n ≤ Z.of_nat (length (targets gs)))%Z
              ∧ (b = true ↔ n = 0%Z)) as Hreply.
  { intros ok gs' Hinv' Ht. pose proof (found_length_le gs' Hinv') as Hle.
    rewrite Ht in Hle. eexists _, _. split; [reflexivity|]. split; [reflexivity|].
    rewrite Ht. split; [lia|]. rewrite bool_decide_eq_true. lia. }
  destruct (guess_ok gs g && negb (bool_decide (g ∈ found gs))) eqn:Hbranch.
  - apply andb_true_iff in Hbranch as [Hok Hnew].
    apply negb_true_iff, bool_decide_eq_false in Hnew.
    destruct (Hreply (guess_ok gs g) (found_append gs g))
      as (n & b & H1 & H2 & H3 & H4); [by apply found_append_inv|done|].
    by eexists _, _, n, b.
  - destruct (Hreply (guess_ok gs g) gs) as (n & b & H1 & H2 & H3 & H4);
      [done|done|].
    by eexists _, _, n, b.
Qed.

(** *** More on guesses *)

Lemma guess_empty_sid items W :
  default JNull (assoc "session_id" items) = JStr "" →
  guess (JObj items) W = (Ok invalid_session, W).
Proof.
  intros Hsid. unfold guess, method_get.
  erewrite bind_ok by reflexivity. erewrite bind_ok by reflexivity.
  by rewrite Hsid.
Qed.

Lemma guess_unhashable items W :
  match default JNull (assoc "session_id" items) with
  | JArr (_ :: _) | JObj (_ :: _) => True
  | _ => False
  end →
  guess (JObj items) W = (Raise TypeError, W).
Proof.
  intros Hsid. unfold guess, method_get.
  erewrite bind_ok by reflexivity. erewrite bind_ok by reflexivity.
  by destruct (default JNull (assoc "session_id" items))
    as [| | | | |[|v l]|[|kv its]].
Qed.

(** C5: an identifier that names no stored session is not always answered
    with the invalid-session reply.  When the [session_id] member of the
    body is a non-empty list or object, the membership test
    [sid not in SESSIONS] has to hash it and raises [TypeError]: [guess]
    ends in that exception, returns no reply at all, and leaves the
    process state as it was. *)
Theorem guess_unhashable_session_id_raises items W :
  match default JNull (assoc "session_id" items) with
  | JArr (_ :: _) | JObj (_ :: _) => True
  | _ => False
  end →
  guess (JObj items) W = (Raise TypeError, W)
  ∧ (guess (JObj items) W).1 ≠ Ok (JObj [("error", JStr "invalid session")], 400).
Proof.
  intros Hsid. rewrite (guess_unhashable items W Hsid). by split.
Qed.

(** X15: for every value that [request.get_json] hands over as the parsed
    body, the rest of [guess] ends in an exception in two cases only, and
    then leaves the process state as it was: [AttributeError] when the
    parsed body is no JSON object, [TypeError] when the [session_id]
    member is a non-empty list or object.  In every other case it returns
    a reply, either with status 200 or the invalid-session reply with
    status 400.  (A body that does not parse never gets this far.) *)
Theorem guess_raises_only_outside_the_contract data W :
  match data with
  | JObj items =>
      match default JNull (assoc "session_id" items) with
      | JArr (_ :: _) | JObj (_ :: _) => guess data W = (Raise TypeError, W)
      | _ =>
          ∃ r W', guess data W = (Ok r, W')
                  ∧ (status r = 200
                     ∨ r = (JObj [("error", JStr "invalid session")], 400) ∧ W' = W)
      end
  | _ => guess data W = (Raise AttributeError, W)
  end.
Proof.
  destruct data as [| | | | | |items]; try reflexivity.
  destruct (default JNull (assoc "session_id" items))
    as [|b|n|x|s|[|v l]|[|kv its]] eqn:Hsid;
    try (exists invalid_session, W;
         by (split; [apply guess_unknown; by rewrite Hsid|right]));
    try (apply guess_unhashable; by rewrite Hsid).
  destruct (SESSIONS W !! s) as [gs|] eqn:Hgs.
  - destruct (decide (s = "")) as [->|Hne].
    { exists invalid_session, W. split; [by apply guess_empty_sid|by right]. }
    assert (assoc "session_id" items = Some (JStr s)) as Hassoc.
    { destruct (assoc "session_id" items); simpl in Hsid; congruence. }
    rewrite (guess_known items s gs W Hassoc Hne Hgs). cbv zeta.
    destruct (guess_ok gs _ && negb (bool_decide (_ ∈ found gs)));
      eexists _, _; (split; [reflexivity|by left]).
  - exists invalid_session, W. split; [|by right].
    apply guess_unknown. by rewrite Hsid.
Qed.

Lemma guess_frame items sid W :
  assoc "session_id" items = Some (JStr sid) →
  (guess (JObj items) W).2 = W
  ∨ ∃ gs g, SESSIONS W !! sid = Some gs
            ∧ (guess (JObj items) W).2
              = mkWorld (<[sid := found_append gs g]> (SESSIONS W))
                        (rand_pos W) (urandom_pos W) (llm_pos W).
Proof.
  intros Hsid.
  destruct (SESSIONS W !! sid) as [gs|] eqn:Hgs.
  - destruct (decide (sid = "")) as [->|Hne].
    { left. rewrite guess_empty_sid; [done|by rewrite Hsid]. }
    rewrite (guess_known items sid gs W Hsid Hne Hgs). cbv zeta.
    destruct (guess_ok gs _ && negb (bool_decide (_ ∈ found gs)));
      [right; by eexists gs, _|by left].
  - left. rewrite guess_unknown; [done|]. by rewrite Hsid.
Qed.

(** X16: a guess that names the session [sid] touches nothing but the
    [found] list of that session: every other session, the topic,
    letters, scrambled string and targets of the session itself, and the
    positions in the random, entropy and collaborator streams all stay as
    they were; when [sid] is no key of the store, nothing changes. *)
Theorem guess_touches_one_found_list items sid W :
  assoc "session_id" items = Some (JStr sid) →
  (∀ sid', sid' ≠ sid →
           SESSIONS (guess (JObj items) W).2 !! sid' = SESSIONS W !! sid')
  ∧ (∀ gs, SESSIONS W !! sid = Some gs →
           ∃ gs', SESSIONS (guess (JObj items) W).2 !! sid = Some gs'
                  ∧ topic gs' = topic gs ∧ letters gs' = letters gs
                  ∧ scrambled gs' = scrambled gs ∧ targets gs' = targets gs)
  ∧ (SESSIONS W !! sid = None → (guess (JObj items) W).2 = W)
  ∧ rand_pos (guess (JObj items) W).2 = rand_pos W
  ∧ urandom_pos (guess (JObj items) W).2 = urandom_pos W
  ∧ llm_pos (guess (JObj items) W).2 = llm_pos W.
Proof.
  intros Hsid.
  destruct (guess_frame items sid W Hsid) as [->|(gs0 & g & Hgs0 & ->)].
  - split; [done|]. split; [|done]. intros gs Hgs. by exists gs.
  - cbn [SESSIONS rand_pos urandom_pos llm_pos].
    split; [intros sid' Hne; by apply lookup_insert_ne|].
    split; [|split; [congruence|done]].
    intros gs Hgs. assert (gs0 = gs) as -> by congruence.
    exists (found_append gs g). by rewrite lookup_insert_eq.
Qed.

Lemma target_normal_form W sid gs w :
  reachable W → SESSIONS W !! sid = Some gs → w ∈ targets gs →
  PyStr.strip (PyStr.lower w) = w.
Proof.
  intros Hreach Hgs Hw.
  destruct (reachable_inv W Hreach _ _ Hgs) as [[Ht _ _] _].
  rewrite Ht in Hw. apply anagrams_spec in Hw as (_ & _ & Hw).
  destruct (FIVE_WORDS_valid _ Hw) as (Ha & _ & -> & _).
  by apply PyStrFacts.strip_alpha, PyStrFacts.isalpha_all_chars.
Qed.

(** X17: every target of a stored session is its own normal form, so
    sending a target exactly as spelt is answered with [correct = true]
    and leaves the target in [found]: no target is out of a player's
    reach. *)
Theorem every_target_can_be_guessed_verbatim W sid gs items w :
  reachable W → SESSIONS W !! sid = Some gs →
  assoc "session_id" items = Some (JStr sid) →
  assoc "guess" items = Some (JStr w) →
  w ∈ targets gs →
  PyStr.strip (PyStr.lower w) = w
  ∧ ∃ r W' gs',
      guess (JObj items) W = (Ok r, W')
      ∧ field "correct" r = Some (JBool true)
      ∧ SESSIONS W' !! sid = Some gs'
      ∧ w ∈ found gs'.
Proof.
  intros Hreach Hgs Hsid Hguess Hw.
  pose proof (target_normal_form W sid gs w Hreach Hgs Hw) as Hnorm.
  split; [done|].
  pose proof (reachable_sid_nonempty W sid gs Hreach Hgs) as Hne.
  pose proof (guess_ok_target W sid gs w Hreach Hgs Hw) as Hok.
  rewrite (guess_known items sid gs W Hsid Hne Hgs), Hguess. cbv zeta.
  change (normalize (default (JStr "") (Some (JStr w))))
    with (PyStr.strip (PyStr.lower w)).
  rewrite Hnorm, Hok. cbn [andb].
  destruct (bool_decide (w ∈ found gs)) eqn:Hfound; cbn [negb].
  - apply bool_decide_eq_true in Hfound. by eexists _, _, gs.
  - eexists _, _, (found_append gs w). split; [reflexivity|]. split; [done|].
    split; [apply lookup_insert_eq|].
    cbn [found_append found]. apply elem_of_app. right. by left.
Qed.

Lemma guess_new_target W sid gs w :
  reachable W → SESSIONS W !! sid = Some gs →
  w ∈ targets gs → w ∉ found gs →
  (guess (JObj [("session_id", JStr sid); ("guess", JStr w)]) W).2
  = mkWorld (<[sid := found_append gs w]> (SESSIONS W))
            (rand_pos W) (urandom_pos W) (llm_pos W).
Proof.
  intros Hreach Hgs Hw Hnew.
  pose proof (reachable_sid_nonempty W sid gs Hreach Hgs) as Hne.
  pose proof (guess_ok_target W sid gs w Hreach Hgs Hw) as Hok.
  pose proof (target_normal_form W sid gs w Hreach Hgs Hw) as Hnorm.
  rewrite (guess_known [("session_id", JStr sid); ("guess", JStr w)]
             sid gs W eq_refl Hne Hgs). cbv zeta.
  change (normalize (default (JStr "") (assoc "guess" _)))
    with (PyStr.strip (PyStr.lower w)).
  by rewrite Hnorm, Hok, (bool_decide_false _ Hnew).
Qed.

Lemma guesses_in_order ws W sid gs :
  reachable W → SESSIONS W !! sid = Some gs →
  NoDup ws → (∀ w, w ∈ ws → w ∈ targets gs ∧ w ∉ found gs) →
  ∃ gs',
    SESSIONS
      (foldl (λ W w,
                (guess (JObj [("session_id", JStr sid); ("guess", JStr w)]) W).2)
             W ws) !! sid = Some gs'
    ∧ found gs' = found gs ++ ws
    ∧ targets gs' = targets gs
    ∧ session_inv gs'.
Proof.
  revert W gs. induction ws as [|w ws IH]; intros W gs Hreach Hgs Hnd Hws.
  - exists gs. rewrite app_nil_r. split; [done|]. split; [done|]. split; [done|].
    by destruct (reachable_inv W Hreach _ _ Hgs).
  - apply NoDup_cons in Hnd as [Hw Hnd].
    destruct (Hws w) as [Hin Hnew]; [left|].
    cbn [foldl]. set (data := JObj _).
    assert (reachable (guess data W).2) as Hreach1
      by apply (reachable_step _ _ _ _ _ _ _ _ _ _ W (Guess data) Hreach).
    assert (SESSIONS (guess data W).2 !! sid = Some (found_append gs w)) as Hgs1.
    { subst data. rewrite (guess_new_target W sid gs w Hreach Hgs Hin Hnew).
      apply lookup_insert_eq. }
    destruct (IH (guess data W).2 (found_append gs w) Hreach1 Hgs1 Hnd)
      as (gs' & Hgs' & Hfound & Htargets & Hinv).
    { intros w' Hw'. destruct (Hws w') as [Hin' Hnew']; [by right|].
      split; [done|]. cbn [found_append found].
      intros [?| ->%list_elem_of_singleton]%elem_of_app; done. }
    exists gs'. split; [done|]. split; [|done].
    rewrite Hfound. cbn [found_append found]. by rewrite <-(assoc_L (++)).
Qed.

(** X18: guessing, one after the other and each exactly as spelt, words
    that are targets of a stored session, different from each other and
    not yet found, appends them to [found] in the order of the guesses and
    changes nothing else of the session; the state operation then reports
    them, and when they cover what was missing the session has found as
    many words as it has targets. *)
Theorem guessing_targets_in_any_order W sid gs ws :
  reachable W → SESSIONS W !! sid = Some gs →
  NoDup ws → (∀ w, w ∈ ws → w ∈ targets gs ∧ w ∉ found gs) →
  ∃ gs' W',
    W' = foldl (λ W w,
                  (guess (JObj [("session_id", JStr sid); ("guess", JStr w)]) W).2)
               W ws
    ∧ SESSIONS W' !! sid = Some gs'
    ∧ found gs' = found gs ++ ws
    ∧ targets gs' = targets gs
    ∧ state (Some sid) W' = (Ok (state_reply gs'), W')
    ∧ ((∀ t, t ∈ targets gs → t ∈ found gs ++ ws) →
       length (found gs') = length (targets gs')).
Proof.
  intros Hreach Hgs Hnd Hws.
  destruct (guesses_in_order ws W sid gs Hreach Hgs Hnd Hws)
    as (gs' & Hgs' & Hfound & Htargets & Hinv).
  eexists gs', _. split; [reflexivity|]. split; [done|]. split; [done|].
  split; [done|]. split.
  - rewrite state_run. cbn [from_option id]. by rewrite Hgs'.
  - intros Hall. apply covered_length; [done|].
    rewrite Htargets, Hfound. done.
Qed.

(** X19: after a guess for a stored session, the state operation on the
    same identifier returns the found list that the guess returned, the
    total and the letters of the session as they were before the guess. *)
Theorem state_after_guess W sid gs items :
  reachable W → SESSIONS W !! sid = Some gs →
  assoc "session_id" items = Some (JStr sid) →
  ∃ r W' r',
    guess (JObj items) W = (Ok r, W')
    ∧ state (Some sid) W' = (Ok r', W')
    ∧ field "found" r' = field "found" r
    ∧ field "total" r' = Some (JInt (Z.of_nat (length (targets gs))))
    ∧ field "letters" r' = Some (JStr (letters gs))
    ∧ field "scrambled" r' = Some (JStr (scrambled gs))
    ∧ field "topic" r' = Some (JStr (topic gs)).
Proof.
  intros Hreach Hgs Hsid.
  pose proof (reachable_sid_nonempty W sid gs Hreach Hgs) as Hne.
  rewrite (guess_known items sid gs W Hsid Hne Hgs). cbv zeta.
  destruct (guess_ok gs _ && negb (bool_decide (_ ∈ found gs))).
  - eexists _, _, (state_reply (found_append gs _)). split; [reflexivity|].
    split; [|done].
    rewrite state_run. cbn [from_option id SESSIONS]. by rewrite lookup_insert_eq.
  - eexists _, _, (state_reply gs). split; [reflexivity|]. split; [|done].
    rewrite state_run. cbn [from_option id]. by rewrite Hgs.
Qed.

(** X20: no request removes a session or renames one: [guess] and [state]
    leave the set of stored identifiers as it was, whatever their input,
    and [new_game] adds the one identifier it reports. *)
Theorem requests_never_remove_a_session r W :
  match r with
  | NewGame =>
      ∃ sid reply,
        (handle r W).1 = Ok reply
        ∧ field "session_id" reply = Some (JStr sid)
        ∧ dom (SESSIONS (handle r W).2) = {[sid]} ∪ dom (SESSIONS W)
  | Guess _ | State _ => dom (SESSIONS (handle r W).2) = dom (SESSIONS W)
  end.
Proof.
  destruct r as [|data|arg]; unfold handle.
  - destruct (new_game_spec W) as (sid & gs & W' & Hrun & HS & _).
    exists sid, (new_game_reply sid gs). rewrite Hrun. cbn [fst snd].
    split; [done|]. split; [done|]. rewrite HS. apply dom_insert_L.
  - destruct (guess_sessions data W)
      as [->|(s & gs & g & Hgs & _ & _ & ->)]; [done|].
    apply dom_insert_lookup_L. eauto.
  - by rewrite state_run.
Qed.

(** X21: the normal form of a guess is stable: it is unchanged by
    [lower], by [strip], and by normalising it again, so a word sent back
    as it was normalised is judged as the original guess was. *)
Theorem normalize_is_idempotent v :
  PyStr.lower (normalize v) = normalize v
  ∧ PyStr.strip (normalize v) = normalize v
  ∧ normalize (JStr (normalize v)) = normalize v.
Proof.
  unfold normalize. cbn [py_str]. set (s := py_str py_repr v).
  split; [|split].
  - by rewrite <-PyStrFacts.strip_lower, PyStrFacts.lower_idem.
  - apply PyStrFacts.strip_idem.
  - by rewrite <-PyStrFacts.strip_lower, PyStrFacts.lower_idem,
      PyStrFacts.strip_idem.
Qed.

End GameFacts.

(** ** The model at work on the example deployment *)

Section Runs.

Import Example.

Lemma world1_reachable : is_reachable world1.
Proof. apply reachable_step, reachable_initial. Qed.

Lemma world2_reachable : is_reachable world2.
Proof. apply reachable_step, world1_reachable. Qed.

Lemma world1_session : SESSIONS world1 !! sid1 = Some session1.
Proof. vm_compute. reflexivity. Qed.

(** The scenario of the specification: letters "aster" have signature
    "aerst", and the session counts four answers. *)
Example aster_scenario :
  signature "aster" = "aerst"
  ∧ (run NewGame initial).1
    = Ok (JObj [("session_id", JStr sid1); ("topic", JStr "sports");
                ("scrambled", JStr "tsear"); ("letters", JStr "aerst");
                ("answer_count", JInt 4)], 200).
Proof. split; vm_compute; reflexivity. Qed.

(** [str(False).lower()] is the word "false": a JSON boolean as guess is
    counted as that word in a session whose letters spell it. *)
Example guess_boolean_false_is_a_word :
  (run (Guess (JObj (body (JStr sid2) (JBool false)))) world2).1
  = Ok (JObj [("correct", JBool true); ("found", JArr [JStr "false"]);
              ("remaining", JInt 1); ("complete", JBool false)], 200).
Proof. vm_compute. reflexivity. Qed.

(** With an empty vocabulary the new game has no answer at all. *)
Example empty_vocabulary_run :
  (run_no_words NewGame initial).1
  = Ok (JObj [("session_id", JStr sid1); ("topic", JStr "animals");
              ("scrambled", JStr "trgei"); ("letters", JStr "egirt");
              ("answer_count", JInt 0)], 200).
Proof. vm_compute. reflexivity. Qed.

(** A non-empty list or object as [session_id] cannot be hashed, and a
    body that is no JSON object has no [get]: both calls end in an
    exception instead of a reply. *)
Example guess_outside_the_contract_raises :
  (run (Guess (JObj (body (JArr [JNull]) (JStr "rates")))) world2).1
  = Raise TypeError
  ∧ (run (Guess (JArr [JStr sid1])) world2).1 = Raise AttributeError.
Proof. split; vm_compute; reflexivity. Qed.

End Runs.

(** ** Instances of the theorems on the example deployment *)

Lemma build_five_index_buckets_witness :
  (∀ w, w ∈ ["aster"; "rates"; "stare"; "tears"] →
     PyStr.len w = 5
     ∧ float_ge (Example.zipf_frequency w) Example.MIN_ZIPF = true
     ∧ signature w = "aerst")
  ∧ NoDup ["aster"; "rates"; "stare"; "tears"]
  ∧ StronglySorted String.le ["aster"; "rates"; "stare"; "tears"].
Proof.
  apply (build_five_index_buckets Example.top_n_list Example.zipf_frequency
           Example.LIMIT_VOCAB Example.MIN_ZIPF "aerst").
  vm_compute. reflexivity.
Defined.

Lemma guess_target_then_repeat_witness :
  ∃ r1 W1 gs1 r2,
    guess Example.py_repr (JObj (Example.body (JStr Example.sid1) (JStr "rates")))
          Example.world1 = (Ok r1, W1)
    ∧ status r1 = 200
    ∧ field "correct" r1 = Some (JBool true)
    ∧ field "found" r1 = Some (json_strings (found Example.session1 ++ ["rates"]))
    ∧ SESSIONS W1 !! Example.sid1 = Some gs1
    ∧ found gs1 = found Example.session1 ++ ["rates"]
    ∧ length (found gs1) = length (found Example.session1) + 1
    ∧ guess Example.py_repr (JObj (Example.body (JStr Example.sid1) (JStr " RATES")))
            W1 = (Ok r2, W1)
    ∧ status r2 = 200
    ∧ field "correct" r2 = Some (JBool true)
    ∧ field "found" r2 = Some (json_strings (found gs1)).
Proof.
  apply (guess_target_then_repeat Example.top_n_list Example.zipf_frequency
           Example.LIMIT_VOCAB Example.MIN_ZIPF true Example.py_repr Example.rand
           Example.urandom Example.llm Example.extract
           Example.world1 Example.sid1 Example.session1 _ _ "rates" " RATES" "rates").
  - apply reachable_step, reachable_initial.
  - vm_compute. reflexivity.
  - reflexivity.
  - reflexivity.
  - reflexivity.
  - reflexivity.
  - vm_compute. reflexivity.
  - vm_compute. reflexivity.
  - apply (bool_decide_unpack _). vm_compute. exact I.
  - apply (bool_decide_unpack _). vm_compute. exact I.
Defined.

Lemma guess_rejected_witness :
  ∃ r,
    guess Example.py_repr (JObj (Example.body (JStr Example.sid1) (JStr "Tiger")))
          Example.world1 = (Ok r, Example.world1)
    ∧ status r = 200
    ∧ field "correct" r = Some (JBool false)
    ∧ field "found" r = Some (json_strings (found Example.session1)).
Proof.
  apply (guess_rejected Example.top_n_list Example.zipf_frequency
           Example.LIMIT_VOCAB Example.MIN_ZIPF true Example.py_repr Example.rand
           Example.urandom Example.llm Example.extract
           Example.world1 Example.sid1 Example.session1 _ "Tiger").
  - apply reachable_step, reachable_initial.
  - vm_compute. reflexivity.
  - reflexivity.
  - reflexivity.
  - apply (bool_decide_unpack _). vm_compute. exact I.
Defined.

Lemma guess_reply_counts_witness :
  ∃ r W' gs',
    guess Example.py_repr (JObj (Example.body (JStr Example.sid1) (JStr "stare")))
          Example.world1 = (Ok r, W')
    ∧ SESSIONS W' !! Example.sid1 = Some gs'
    ∧ targets gs' = targets Example.session1
    ∧ field "found" r = Some (json_strings (found gs'))
    ∧ field "remaining" r
      = Some (JInt (Z.of_nat (length (targets Example.session1))
                    - Z.of_nat (length (found gs'))))
    ∧ field "complete" r
      = Some (JBool (bool_decide
                       (length (found gs') = length (targets Example.session1))))
    ∧ ((∀ t, t ∈ targets Example.session1 → t ∈ found gs') →
       field "complete" r = Some (JBool true)
       ∧ field "remaining" r = Some (JInt 0)).
Proof.
  apply (guess_reply_counts Example.top_n_list Example.zipf_frequency
           Example.LIMIT_VOCAB Example.MIN_ZIPF true Example.py_repr Example.rand
           Example.urandom Example.llm Example.extract
           Example.world1 Example.sid1 Example.session1).
  - apply reachable_step, reachable_initial.
  - vm_compute. reflexivity.
  - reflexivity.
Defined.

Lemma unknown_session_is_rejected_witness :
  guess Example.py_repr
        (JObj (Example.body (JStr "nonexistent") (JStr "rates"))) Example.world2
  = (Ok (JObj [("error", JStr "invalid session")], 400), Example.world2)
  ∧ state None Example.world2
    = (Ok (JObj [("error", JStr "invalid session")], 400), Example.world2).
Proof.
  apply (unknown_session_is_rejected Example.top_n_list Example.zipf_frequency
           Example.LIMIT_VOCAB Example.MIN_ZIPF true Example.py_repr Example.rand
           Example.urandom Example.llm Example.extract).
  - apply reachable_step, reachable_step, reachable_initial.
  - vm_compute. reflexivity.
  - exact I.
Defined.

Lemma new_game_empty_vocabulary_answer_count_0_witness :
  ∃ sid gs W',
    new_game Example.no_words Example.zipf_frequency Example.LIMIT_VOCAB
             Example.MIN_ZIPF true Example.py_repr Example.rand Example.urandom
             Example.llm Example.extract initial
    = (Ok (new_game_reply sid gs), W')
    ∧ SESSIONS W' !! sid = Some gs
    ∧ letters gs = "egirt"
    ∧ targets gs = []
    ∧ field "answer_count" (new_game_reply sid gs) = Some (JInt 0).
Proof.
  apply (new_game_empty_vocabulary_answer_count_0 Example.no_words).
  reflexivity.
Defined.

Lemma found_is_a_growing_duplicate_free_subset_witness :
  (∀ sid gs, SESSIONS Example.world1 !! sid = Some gs →
             NoDup (found gs) ∧ found gs ⊆ targets gs)
  ∧ (∃ sid gs W',
        new_game Example.top_n_list Example.zipf_frequency Example.LIMIT_VOCAB
                 Example.MIN_ZIPF true Example.py_repr Example.rand Example.urandom
                 Example.llm Example.extract Example.world1
        = (Ok (new_game_reply sid gs), W')
        ∧ SESSIONS W' !! sid = Some gs ∧ found gs = [])
  ∧ (∀ data sid gs,
        SESSIONS Example.world1 !! sid = Some gs →
        ∃ gs', SESSIONS (guess Example.py_repr data Example.world1).2 !! sid = Some gs'
               ∧ targets gs' = targets gs
               ∧ (found gs' = found gs
                  ∨ ∃ w, w ∈ targets gs ∧ (w ∉ found gs)
                         ∧ found gs' = found gs ++ [w]))
  ∧ (∀ arg, (state arg Example.world1).2 = Example.world1).
Proof.
  apply (found_is_a_growing_duplicate_free_subset Example.top_n_list
           Example.zipf_frequency Example.LIMIT_VOCAB Example.MIN_ZIPF true
           Example.py_repr Example.rand Example.urandom Example.llm Example.extract).
  apply reachable_step, reachable_initial.
Defined.

Lemma guess_total_in_guess_field_witness :
  ∃ r W',
    guess Example.py_repr (JObj (Example.body (JStr Example.sid1) (JInt 12345)))
          Example.world1 = (Ok r, W')
    ∧ status r = 200
    ∧ field "correct" r
      = Some (JBool (guess_ok Example.session1
                       (normalize Example.py_repr
                          (default (JStr "")
                             (assoc "guess"
                                (Example.body (JStr Example.sid1) (JInt 12345)))))))
    ∧ (normalize Example.py_repr
         (default (JStr "")
            (assoc "guess" (Example.body (JStr Example.sid1) (JInt 12345))))
       ∉ targets Example.session1 →
       field "correct" r = Some (JBool false)
       ∧ field "found" r = Some (json_strings (found Example.session1))
       ∧ W' = Example.world1).
Proof.
  apply (guess_total_in_guess_field Example.top_n_list Example.zipf_frequency
           Example.LIMIT_VOCAB Example.MIN_ZIPF true Example.py_repr Example.rand
           Example.urandom Example.llm Example.extract
           Example.world1 Example.sid1 Example.session1).
  - apply reachable_step, reachable_initial.
  - vm_compute. reflexivity.
  - reflexivity.
Defined.

Lemma kept_words_are_valid_and_indexed_witness :
  PyStr.isalpha "tiger" = true
  ∧ PyStr.len "tiger" = 5
  ∧ PyStr.lower "tiger" = "tiger"
  ∧ PyStr.strip "tiger" = "tiger"
  ∧ float_ge (Example.zipf_frequency "tiger") Example.MIN_ZIPF = true
  ∧ (∃ w0, w0 ∈ Example.top_n_list Example.LIMIT_VOCAB ∧ "tiger" = PyStr.lower w0)
  ∧ ∃ l, (build_five_index Example.top_n_list Example.zipf_frequency
            Example.LIMIT_VOCAB Example.MIN_ZIPF).2 !! signature "tiger" = Some l
         ∧ "tiger" ∈ l.
Proof.
  apply (kept_words_are_valid_and_indexed Example.top_n_list
           Example.zipf_frequency Example.LIMIT_VOCAB Example.MIN_ZIPF "tiger").
  apply (bool_decide_unpack _). vm_compute. exact I.
Defined.

Lemma picker_returns_the_first_accepted_reply_witness :
  ask_tinyllama_topic_and_word Example.top_n_list Example.zipf_frequency
    Example.LIMIT_VOCAB Example.MIN_ZIPF false Example.py_repr Example.rand
    Example.llm2 Example.extract2 initial
  = (Ok ("animals", "tiger"),
     mkWorld (SESSIONS initial) (rand_pos initial) (urandom_pos initial)
             (llm_pos initial + 3)).
Proof.
  apply (picker_returns_the_first_accepted_reply Example.top_n_list
           Example.zipf_frequency Example.LIMIT_VOCAB Example.MIN_ZIPF false
           Example.py_repr Example.rand Example.llm2 Example.extract2
           initial 2 ("animals", "tiger")).
  - reflexivity.
  - apply (bool_decide_unpack _). vm_compute. exact I.
  - lia.
  - intros j Hj. destruct j as [|[|j]]; [reflexivity|reflexivity|lia].
  - vm_compute. reflexivity.
Defined.

Lemma picker_falls_back_after_three_rejections_witness :
  ask_tinyllama_topic_and_word Example.top_n_list Example.zipf_frequency
    Example.LIMIT_VOCAB Example.MIN_ZIPF false Example.py_repr Example.rand
    Example.llm Example.extract initial
  = _fallback_topic_word Example.top_n_list Example.zipf_frequency
      Example.LIMIT_VOCAB Example.MIN_ZIPF Example.rand
      (mkWorld (SESSIONS initial) (rand_pos initial) (urandom_pos initial)
               (llm_pos initial + 3)).
Proof.
  apply (picker_falls_back_after_three_rejections Example.top_n_list
           Example.zipf_frequency Example.LIMIT_VOCAB Example.MIN_ZIPF false
           Example.py_repr Example.rand Example.llm Example.extract initial).
  - reflexivity.
  - apply (bool_decide_unpack _). vm_compute. exact I.
  - intros j Hj. reflexivity.
Defined.

Lemma picked_word_meets_the_threshold_witness :
  ∃ topic word W',
    ask_tinyllama_topic_and_word Example.top_n_list Example.zipf_frequency
      Example.LIMIT_VOCAB Example.MIN_ZIPF false Example.py_repr Example.rand
      Example.llm2 Example.extract2 initial
    = (Ok (topic, word), W')
    ∧ valid_word Example.zipf_frequency Example.MIN_ZIPF word = true
    ∧ float_ge (Example.zipf_frequency word) Example.MIN_ZIPF = true.
Proof.
  apply (picked_word_meets_the_threshold Example.top_n_list).
  apply (bool_decide_unpack _). vm_compute. exact I.
Defined.

Lemma new_game_has_an_answer_witness :
  ∃ sid gs W' n,
    new_game Example.top_n_list Example.zipf_frequency Example.LIMIT_VOCAB
             Example.MIN_ZIPF true Example.py_repr Example.rand Example.urandom
             Example.llm Example.extract initial
    = (Ok (new_game_reply sid gs), W')
    ∧ SESSIONS W' !! sid = Some gs
    ∧ targets gs ≠ []
    ∧ field "answer_count" (new_game_reply sid gs) = Some (JInt n)
    ∧ (1 ≤ n)%Z.
Proof.
  apply (new_game_has_an_answer Example.top_n_list).
  apply (bool_decide_unpack _). vm_compute. exact I.
Defined.

Lemma stored_sessions_are_well_formed_witness :
  String.length Example.sid1 = 32
  ∧ PyStr.len (letters Example.session1) = 5
  ∧ signature (letters Example.session1) = letters Example.session1
  ∧ signature (scrambled Example.session1) = letters Example.session1
  ∧ PyStr.len (scrambled Example.session1) = 5
  ∧ (∀ w, w ∈ targets Example.session1
          ↔ w ∈ FIVE_WORDS Example.top_n_list Example.zipf_frequency
                  Example.LIMIT_VOCAB Example.MIN_ZIPF
            ∧ signature w = letters Example.session1)
  ∧ NoDup (targets Example.session1)
  ∧ StronglySorted String.le (targets Example.session1)
  ∧ length (found Example.session1) ≤ length (targets Example.session1).
Proof.
  apply (stored_sessions_are_well_formed Example.top_n_list Example.zipf_frequency
           Example.LIMIT_VOCAB Example.MIN_ZIPF true Example.py_repr Example.rand
           Example.urandom Example.llm Example.extract Example.world1).
  - apply reachable_step, reachable_initial.
  - vm_compute. reflexivity.
Defined.

Lemma remaining_is_within_bounds_witness :
  ∃ r W' n b,
    guess Example.py_repr (JObj (Example.body (JStr Example.sid1) (JStr "rates")))
          Example.world1 = (Ok r, W')
    ∧ field "remaining" r = Some (JInt n)
    ∧ field "complete" r = Some (JBool b)
    ∧ (0 ≤ n ≤ Z.of_nat (length (targets Example.session1)))%Z
    ∧ (b = true ↔ n = 0%Z).
Proof.
  apply (remaining_is_within_bounds Example.top_n_list Example.zipf_frequency
           Example.LIMIT_VOCAB Example.MIN_ZIPF true Example.py_repr Example.rand
           Example.urandom Example.llm Example.extract
           Example.world1 Example.sid1 Example.session1).
  - apply reachable_step, reachable_initial.
  - vm_compute. reflexivity.
  - reflexivity.
Defined.

Lemma guess_touches_one_found_list_witness :
  (∀ sid', sid' ≠ Example.sid1 →
     SESSIONS (guess Example.py_repr
                 (JObj (Example.body (JStr Example.sid1) (JStr "rates")))
                 Example.world2).2 !! sid'
     = SESSIONS Example.world2 !! sid')
  ∧ (∀ gs, SESSIONS Example.world2 !! Example.sid1 = Some gs →
       ∃ gs', SESSIONS (guess Example.py_repr
                          (JObj (Example.body (JStr Example.sid1) (JStr "rates")))
                          Example.world2).2 !! Example.sid1 = Some gs'
              ∧ topic gs' = topic gs ∧ letters gs' = letters gs
              ∧ scrambled gs' = scrambled gs ∧ targets gs' = targets gs)
  ∧ (SESSIONS Example.world2 !! Example.sid1 = None →
     (guess Example.py_repr
        (JObj (Example.body (JStr Example.sid1) (JStr "rates")))
        Example.world2).2 = Example.world2)
  ∧ rand_pos (guess Example.py_repr
                (JObj (Example.body (JStr Example.sid1) (JStr "rates")))
                Example.world2).2 = rand_pos Example.world2
  ∧ urandom_pos (guess Example.py_repr
                   (JObj (Example.body (JStr Example.sid1) (JStr "rates")))
                   Example.world2).2 = urandom_pos Example.world2
  ∧ llm_pos (guess Example.py_repr
               (JObj (Example.body (JStr Example.sid1) (JStr "rates")))
               Example.world2).2 = llm_pos Example.world2.
Proof.
  apply (guess_touches_one_found_list Example.py_repr
           (Example.body (JStr Example.sid1) (JStr "rates")) Example.sid1
           Example.world2).
  reflexivity.
Defined.

Lemma every_target_can_be_guessed_verbatim_witness :
  PyStr.strip (PyStr.lower "stare") = "stare"
  ∧ ∃ r W' gs',
      guess Example.py_repr (JObj (Example.body (JStr Example.sid1) (JStr "stare")))
            Example.world1 = (Ok r, W')
      ∧ field "correct" r = Some (JBool true)
      ∧ SESSIONS W' !! Example.sid1 = Some gs'
      ∧ "stare" ∈ found gs'.
Proof.
  apply (every_target_can_be_guessed_verbatim Example.top_n_list
           Example.zipf_frequency Example.LIMIT_VOCAB Example.MIN_ZIPF true
           Example.py_repr Example.rand Example.urandom Example.llm
           Example.extract Example.world1 Example.sid1 Example.session1).
  - apply reachable_step, reachable_initial.
  - vm_compute. reflexivity.
  - reflexivity.
  - reflexivity.
  - apply (bool_decide_unpack _). vm_compute. exact I.
Defined.

Lemma guessing_targets_in_any_order_witness :
  ∃ gs' W',
    W' = foldl (λ W w,
                  (guess Example.py_repr
                     (JObj [("session_id", JStr Example.sid1); ("guess", JStr w)])
                     W).2)
               Example.world1 ["tears"; "aster"; "rates"; "stare"]
    ∧ SESSIONS W' !! Example.sid1 = Some gs'
    ∧ found gs' = found Example.session1 ++ ["tears"; "aster"; "rates"; "stare"]
    ∧ targets gs' = targets Example.session1
    ∧ state (Some Example.sid1) W' = (Ok (state_reply gs'), W')
    ∧ ((∀ t, t ∈ targets Example.session1 →
             t ∈ found Example.session1 ++ ["tears"; "aster"; "rates"; "stare"]) →
       length (found gs') = length (targets gs')).
Proof.
  apply (guessing_targets_in_any_order Example.top_n_list Example.zipf_frequency
           Example.LIMIT_VOCAB Example.MIN_ZIPF true Example.py_repr Example.rand
           Example.urandom Example.llm Example.extract
           Example.world1 Example.sid1 Example.session1).
  - apply reachable_step, reachable_initial.
  - vm_compute. reflexivity.
  - apply (bool_decide_unpack _). vm_compute. exact I.
  - intros w Hw. split; [|apply not_elem_of_nil].
    apply list_elem_of_In in Hw. simpl in Hw.
    destruct Hw as [<-|[<-|[<-|[<-|[]]]]];
      apply (bool_decide_unpack _); vm_compute; exact I.
Defined.

Lemma state_after_guess_witness :
  ∃ r W' r',
    guess Example.py_repr (JObj (Example.body (JStr Example.sid1) (JStr "rates")))
          Example.world1 = (Ok r, W')
    ∧ state (Some Example.sid1) W' = (Ok r', W')
    ∧ field "found" r' = field "found" r
    ∧ field "total" r' = Some (JInt (Z.of_nat (length (targets Example.session1))))
    ∧ field "letters" r' = Some (JStr (letters Example.session1))
    ∧ field "scrambled" r' = Some (JStr (scrambled Example.session1))
    ∧ field "topic" r' = Some (JStr (topic Example.session1)).
Proof.
  apply (state_after_guess Example.top_n_list Example.zipf_frequency
           Example.LIMIT_VOCAB Example.MIN_ZIPF true Example.py_repr Example.rand
           Example.urandom Example.llm Example.extract
           Example.world1 Example.sid1 Example.session1).
  - apply reachable_step, reachable_initial.
  - vm_compute. reflexivity.
  - reflexivity.
Defined.

Lemma guess_unhashable_session_id_raises_witness :
  guess Example.py_repr
        (JObj (Example.body (JArr [JStr "nonexistent"]) (JStr "rates")))
        Example.world2
  = (Raise TypeError, Example.world2)
  ∧ (guess Example.py_repr
           (JObj (Example.body (JArr [JStr "nonexistent"]) (JStr "rates")))
           Example.world2).1
    ≠ Ok (JObj [("error", JStr "invalid session")], 400).
Proof.
  apply (guess_unhashable_session_id_raises Example.py_repr
           (Example.body (JArr [JStr "nonexistent"]) (JStr "rates"))
           Example.world2).
  exact I.
Defined.
